(** * An image-classification service: shallow embedding and verification

    The development follows [backend/app.py] (label store, model loader,
    inference engine, HTTP surface) and [backend/database.py] (history
    store).

    Conventions of the embedding.
    - Python [int] is [Z]; lengths, array indices and class counts, which
      the code only ever obtains from [len], [range], [argsort] and tensor
      shapes, are [nat].
    - Python [float] (and the [float32] entries of the probability vector)
      are idealised as real numbers [R]: no rounding and no NaN.
    - Exceptions are explicit: code that may raise lives in the monad [M],
      a state monad over the world [World] with an error result; [try_]
      is [try ... except Exception].
    - Everything outside the repository (the network's forward pass, image
      decoding, the PostgreSQL server behind psycopg2) is either a field of
      a record given from outside or a small model, documented where it is
      defined. *)

From Stdlib Require Import String Ascii.
From Stdlib Require Import List ZArith Lia Bool.
From Stdlib Require Import Sorted Permutation.
From Stdlib Require Import QArith.
From Stdlib Require Import Reals Lra.
From Stdlib Require Import DecimalString.
Import ListNotations.

Open Scope Z_scope.

(* ================================================================= *)
(** ** Python and NumPy helpers *)

Section Sorting.

Variable A : Type.
Variable leb : A -> A -> bool.

(** Insertion of [x] in front of the first element it is below or equal
    to: [x] stays before the elements equal to it. *)
Fixpoint insert_by (x : A) (l : list A) : list A :=
  match l with
  | [] => [x]
  | y :: ys => if leb x y then x :: y :: ys else y :: insert_by x ys
  end.

(** A stable ascending sort: elements that compare equal keep the order
    they have in the input. *)
Fixpoint stable_sort (l : list A) : list A :=
  match l with
  | [] => []
  | x :: xs => insert_by x (stable_sort xs)
  end.

End Sorting.

Arguments insert_by {A} leb x l.
Arguments stable_sort {A} leb l.

(** [l[start:]] with Python's reading of a negative or too large start. *)
Definition py_slice_from {A : Type} (start : Z) (l : list A) : list A :=
  let n := Z.of_nat (length l) in
  if start <? 0
  then skipn (Z.to_nat (Z.max (n + start) 0)) l
  else skipn (Z.to_nat (Z.min start n)) l.

(** [np.argsort(a)]: the indices of [a] in ascending order of their
    entries.  It is modelled as a stable sort, which is what spec 4.4
    takes it to be ("the underlying sort is stable"). *)
Definition argsort {A : Type} (leb : A -> A -> bool) (a : list A) : list nat :=
  map fst
    (stable_sort (fun p q => leb (snd p) (snd q))
                 (combine (seq 0 (length a)) a)).

(** [a[indices]] (NumPy indexing by an index array); an index out of
    range raises [IndexError]. *)
Fixpoint np_take {A : Type} (a : list A) (indices : list nat)
  : option (list A) :=
  match indices with
  | [] => Some []
  | i :: rest =>
      match nth_error a i, np_take a rest with
      | Some x, Some xs => Some (x :: xs)
      | _, _ => None
      end
  end.

(** [np.argsort(probs)[-top_k:][::-1]], lines 288 of app.py. *)
Definition top_indices {A : Type} (leb : A -> A -> bool)
           (probs : list A) (top_k : Z) : list nat :=
  rev (py_slice_from (- top_k) (argsort leb probs)).

(** [str(n)] for a natural number and for an integer. *)
Definition str_of_nat (n : nat) : string :=
  NilEmpty.string_of_uint (Nat.to_uint n).

Definition str_of_Z (z : Z) : string :=
  NilEmpty.string_of_int (Z.to_int z).

(** [f"Class {i}"]. *)
Definition class_placeholder (i : nat) : string :=
  ("Class " ++ str_of_nat i)%string.

(* ================================================================= *)
(** ** Real-number idealisation of the floating-point operations *)

Definition Rleb (x y : R) : bool :=
  if Rle_dec x y then true else false.

Definition Rsum (l : list R) : R := fold_right Rplus 0%R l.

(** [nn.functional.softmax] along the class dimension. *)
Definition softmax (logits : list R) : list R :=
  map (fun x => (exp x / Rsum (map exp logits))%R) logits.

(* ================================================================= *)
(** ** Exceptions and the world *)

(** The result of code that may raise; [Raise] carries [str(e)]. *)
Inductive Exc (A : Type) : Type :=
| Ok (a : A)
| Raise (msg : string).

Arguments Ok {A} a.
Arguments Raise {A} msg.

(** ** Data model (spec 3) *)

Record Prediction := {
  class_id : nat;
  label : string;
  confidence : R
}.

Record ModelInfo := {
  device : string;
  input_shape : string;
  mi_num_classes : option nat;
  processing_time_ms : option R
}.

(** The dict [predict] returns: [{'success': True, 'predictions': ...,
    'model_info': ...}] or [{'success': False, 'error': ...}]. *)
Inductive PredictionResult :=
| PredictOk (predictions : list Prediction) (model_info : ModelInfo)
| PredictError (error : string).

(** A row of the table [predictions]: the columns of [_ensure_table].
    Timestamps are instants on the server's clock. *)
Record Row := {
  row_id : Z;
  row_timestamp : Z;
  row_image_name : string;
  row_prediction : string;
  row_confidence : R;
  row_top_5_predictions : list Prediction
}.

(** What [save_prediction] returns, and one entry of [get_history]. *)
Record Saved := {
  saved_id : Z;
  saved_timestamp : option Z
}.

Record HistoryRecord := {
  h_id : Z;
  h_timestamp : option Z;
  h_image_name : string;
  h_prediction : string;
  h_confidence : option R;
  h_top_5_predictions : list Prediction
}.

(** *** The store behind psycopg2

    A connection is in one of three transaction states, as psycopg2
    reports them: idle, inside a transaction, or inside a transaction
    that a failed statement has aborted (every statement then fails until
    [rollback]).  [pending] holds the rows the open transaction has
    inserted and not yet committed. *)
Inductive TxStatus := TxIdle | TxActive | TxFailed.

Record Conn := {
  tx : TxStatus;
  pending : list Row
}.

(** The world a request runs in: the [Database] object's [conn]
    attribute, the server's committed table with its [SERIAL] counter,
    and the number of psycopg2 calls made so far. *)
Record World := {
  conn : option Conn;
  table : list Row;
  next_id : Z;
  calls : nat
}.

(** What the surroundings decide: which psycopg2 calls fail (by their
    position in the sequence of calls), the server's [now()], the
    request id and the measured processing time. *)
Record Env := {
  faults : nat -> bool;
  now : Z;
  request_id : string;
  elapsed_ms : R
}.

Definition M (A : Type) : Type := World -> World * Exc A.

Definition ret {A : Type} (a : A) : M A := fun w => (w, Ok a).

Definition raise {A : Type} (msg : string) : M A := fun w => (w, Raise msg).

Definition bind {A B : Type} (m : M A) (k : A -> M B) : M B :=
  fun w =>
    match m w with
    | (w1, Ok a) => k a w1
    | (w1, Raise e) => (w1, Raise e)
    end.

(** [try: body except Exception as e: handler(e)]. *)
Definition try_ {A : Type} (body : M A) (handler : string -> M A) : M A :=
  fun w =>
    match body w with
    | (w1, Ok a) => (w1, Ok a)
    | (w1, Raise e) => handler e w1
    end.

Declare Scope m_scope.
Delimit Scope m_scope with m.
Notation "x <- c1 ;; c2" := (bind c1 (fun x => c2))
  (at level 61, c1 at next level, right associativity) : m_scope.
Notation "c1 ;; c2" := (bind c1 (fun _ => c2))
  (at level 61, right associativity) : m_scope.
Open Scope m_scope.

Definition set_conn (c : option Conn) (w : World) : World :=
  {| conn := c; table := table w; next_id := next_id w; calls := calls w |}.

Definition tick (w : World) : World :=
  {| conn := conn w; table := table w; next_id := next_id w;
     calls := S (calls w) |}.

(** [ORDER BY timestamp DESC]: SQL leaves the order of rows with equal
    timestamps open; the model keeps them in storage order. *)
Definition order_by_timestamp_desc (rows : list Row) : list Row :=
  stable_sort (fun a b => row_timestamp b <=? row_timestamp a) rows.

Module psycopg2.

(** Every call first consults the oracle: [faults env (calls w)] says
    whether this call fails for an outside reason (server gone, table
    missing, ...). *)
Definition failing (env : Env) (w : World) : bool := faults env (calls w).

(** [psycopg2.connect(...)]: the new connection, stored by the caller. *)
Definition connect (env : Env) : M Conn :=
  fun w =>
    if failing env w then (tick w, Raise "could not connect to server")
    else (tick w, Ok {| tx := TxIdle; pending := [] |}).

(** [conn.cursor()]. *)
Definition cursor (env : Env) : M unit :=
  fun w =>
    match conn w with
    | None => (w, Raise "'NoneType' object has no attribute 'cursor'")
    | Some _ =>
        if failing env w then (tick w, Raise "connection already closed")
        else (tick w, Ok tt)
    end.

Definition aborted : Conn := {| tx := TxFailed; pending := [] |}.

(** A statement that fails aborts the transaction and discards what it
    did. *)
Definition fail_statement {A : Type} (msg : string) (w : World)
  : World * Exc A :=
  (set_conn (Some aborted) (tick w), Raise msg).

(** [cursor.execute("CREATE TABLE IF NOT EXISTS predictions ...")]. *)
Definition execute_create (env : Env) : M unit :=
  fun w =>
    match conn w with
    | None => (w, Raise "'NoneType' object has no attribute 'cursor'")
    | Some c =>
        match tx c with
        | TxFailed => fail_statement "current transaction is aborted" w
        | _ =>
            if failing env w then fail_statement "statement failed" w
            else (set_conn (Some {| tx := TxActive; pending := pending c |})
                           (tick w), Ok tt)
        end
    end.

(** [cursor.execute("INSERT INTO predictions (image_name, prediction,
    confidence, top_5_predictions) VALUES (...) RETURNING id, timestamp")]
    followed by [cursor.fetchone()]: the id comes from the table's
    sequence and the timestamp is the column default [now()]. *)
Definition execute_insert (env : Env) (image_name prediction : string)
           (confidence : R) (top_5 : list Prediction) : M (option (Z * Z)) :=
  fun w =>
    match conn w with
    | None => (w, Raise "'NoneType' object has no attribute 'cursor'")
    | Some c =>
        match tx c with
        | TxFailed => fail_statement "current transaction is aborted" w
        | _ =>
            if failing env w then fail_statement "statement failed" w
            else
              let r := {| row_id := next_id w;
                          row_timestamp := now env;
                          row_image_name := image_name;
                          row_prediction := prediction;
                          row_confidence := confidence;
                          row_top_5_predictions := top_5 |} in
              ({| conn := Some {| tx := TxActive;
                                  pending := pending c ++ [r] |};
                  table := table w;
                  next_id := next_id w + 1;
                  calls := S (calls w) |},
               Ok (Some (next_id w, now env)))
        end
    end.

(** [cursor.execute("SELECT ... FROM predictions ORDER BY timestamp DESC
    LIMIT %s OFFSET %s")] followed by [cursor.fetchall()].  PostgreSQL
    rejects a negative LIMIT or OFFSET.  The transaction sees the
    committed rows and its own. *)
Definition execute_select (env : Env) (limit offset : Z) : M (list Row) :=
  fun w =>
    match conn w with
    | None => (w, Raise "'NoneType' object has no attribute 'cursor'")
    | Some c =>
        match tx c with
        | TxFailed => fail_statement "current transaction is aborted" w
        | _ =>
            if failing env w then fail_statement "statement failed" w
            else if limit <? 0
            then fail_statement "LIMIT must not be negative" w
            else if offset <? 0
            then fail_statement "OFFSET must not be negative" w
            else
              (set_conn (Some {| tx := TxActive; pending := pending c |})
                        (tick w),
               Ok (firstn (Z.to_nat limit)
                     (skipn (Z.to_nat offset)
                        (order_by_timestamp_desc (table w ++ pending c)))))
        end
    end.

(** [conn.commit()]: the pending rows become part of the table, unless
    the transaction was aborted (then COMMIT ends it as a rollback).  A
    commit that fails commits nothing. *)
Definition commit (env : Env) : M unit :=
  fun w =>
    match conn w with
    | None => (w, Raise "'NoneType' object has no attribute 'commit'")
    | Some c =>
        if failing env w then fail_statement "commit failed" w
        else
          match tx c with
          | TxFailed => (set_conn (Some {| tx := TxIdle; pending := [] |})
                                  (tick w), Ok tt)
          | _ =>
              ({| conn := Some {| tx := TxIdle; pending := [] |};
                  table := table w ++ pending c;
                  next_id := next_id w;
                  calls := S (calls w) |}, Ok tt)
          end
    end.

(** [conn.rollback()]: the open transaction and its rows are dropped. *)
Definition rollback (env : Env) : M unit :=
  fun w =>
    match conn w with
    | None => (w, Raise "'NoneType' object has no attribute 'rollback'")
    | Some c =>
        if failing env w then (tick w, Raise "rollback failed")
        else (set_conn (Some {| tx := TxIdle; pending := [] |}) (tick w),
              Ok tt)
    end.

(** [cursor.execute('SELECT 1')]: a statement that touches no row. *)
Definition execute_select_one (env : Env) : M unit :=
  fun w =>
    match conn w with
    | None => (w, Raise "'NoneType' object has no attribute 'cursor'")
    | Some c =>
        match tx c with
        | TxFailed => fail_statement "current transaction is aborted" w
        | _ =>
            if failing env w then fail_statement "statement failed" w
            else (set_conn (Some {| tx := TxActive; pending := pending c |})
                           (tick w), Ok tt)
        end
    end.

(** [cursor.execute("DELETE FROM predictions")] followed by
    [cursor.rowcount]: the statement deletes every row the transaction
    sees; the rows leave the table when the transaction commits. *)
Definition execute_delete (env : Env) : M Z :=
  fun w =>
    match conn w with
    | None => (w, Raise "'NoneType' object has no attribute 'cursor'")
    | Some c =>
        match tx c with
        | TxFailed => fail_statement "current transaction is aborted" w
        | _ =>
            if failing env w then fail_statement "statement failed" w
            else (set_conn (Some {| tx := TxActive; pending := pending c |})
                           (tick w),
                  Ok (Z.of_nat (length (table w ++ pending c))))
        end
    end.

(** [conn.commit()] of the transaction that ran the DELETE: the table is
    empty afterwards.  A commit that fails deletes nothing. *)
Definition commit_delete (env : Env) : M unit :=
  fun w =>
    match conn w with
    | None => (w, Raise "'NoneType' object has no attribute 'commit'")
    | Some c =>
        if failing env w then fail_statement "commit failed" w
        else
          match tx c with
          | TxFailed => (set_conn (Some {| tx := TxIdle; pending := [] |})
                                  (tick w), Ok tt)
          | _ =>
              ({| conn := Some {| tx := TxIdle; pending := [] |};
                  table := [];
                  next_id := next_id w;
                  calls := S (calls w) |}, Ok tt)
          end
    end.

(** How often [s] is the prediction of a row. *)
Definition count_prediction (s : string) (rows : list Row) : nat :=
  length (filter (fun r => String.eqb (row_prediction r) s) rows).

(** [GROUP BY prediction ORDER BY class_count DESC LIMIT 1] over the
    predictions of [candidates]: a prediction with the highest count in
    [rows].  SQL leaves the choice among equal counts open; the model
    takes the one stored first. *)
Fixpoint most_common_of (candidates rows : list Row)
  : option (string * nat) :=
  match candidates with
  | [] => None
  | r :: rest =>
      let n := count_prediction (row_prediction r) rows in
      match most_common_of rest rows with
      | Some (s', n') =>
          if (n' <=? n)%nat then Some (row_prediction r, n) else Some (s', n')
      | None => Some (row_prediction r, n)
      end
  end.

(** The first statement of [get_stats], the count of the rows and the
    average of their confidence, followed by [cursor.fetchone()]: the
    average of no rows is NULL. *)
Definition execute_totals (env : Env) : M (Z * option R) :=
  fun w =>
    match conn w with
    | None => (w, Raise "'NoneType' object has no attribute 'cursor'")
    | Some c =>
        match tx c with
        | TxFailed => fail_statement "current transaction is aborted" w
        | _ =>
            if failing env w then fail_statement "statement failed" w
            else
              let rows := table w ++ pending c in
              (set_conn (Some {| tx := TxActive; pending := pending c |})
                        (tick w),
               Ok (Z.of_nat (length rows),
                   match rows with
                   | [] => None
                   | _ => Some (Rsum (map row_confidence rows)
                                / INR (length rows))%R
                   end))
        end
    end.

(** The second statement of [get_stats], the most frequent prediction
    with its count, followed by [cursor.fetchone()]. *)
Definition execute_most_common (env : Env) : M (option (string * nat)) :=
  fun w =>
    match conn w with
    | None => (w, Raise "'NoneType' object has no attribute 'cursor'")
    | Some c =>
        match tx c with
        | TxFailed => fail_statement "current transaction is aborted" w
        | _ =>
            if failing env w then fail_statement "statement failed" w
            else
              let rows := table w ++ pending c in
              (set_conn (Some {| tx := TxActive; pending := pending c |})
                        (tick w),
               Ok (most_common_of rows rows))
        end
    end.

End psycopg2.

(* ================================================================= *)
(** ** History store: class [Database] of database.py *)

Module Database.

(** [if not self.conn]. *)
Definition not_connected (w : World) : bool :=
  match conn w with
  | None => true
  | Some _ => false
  end.

(** [_ensure_table]: errors are logged and go no further; there is no
    rollback on this path. *)
Definition _ensure_table (env : Env) : M unit :=
  fun w =>
    if not_connected w then (w, Ok tt)
    else
      try_ (psycopg2.cursor env ;;
            psycopg2.execute_create env ;;
            psycopg2.commit env)
           (fun _ => ret tt) w.

(** [connect]: [True] when a connection was made, [False] when
    [psycopg2.connect] raised. *)
Definition connect (env : Env) : M bool :=
  try_ (c <- psycopg2.connect env ;;
        (fun w => (set_conn (Some c) w, Ok tt)) ;;
        _ensure_table env ;;
        ret true)
       (fun _ => ret false).

(** The lazy connection every operation starts with: [true] when the
    operation can go on. *)
Definition ensure_connected (env : Env) : M bool :=
  fun w =>
    if not_connected w then connect env w else (w, Ok true).

(** The [try] block of [save_prediction] (lines 46-79).
    [json.dumps(top_5)] and the JSONB column are kept as the list
    itself. *)
Definition insert_block (env : Env) (image_name prediction : string)
           (confidence : R) (top_5 : list Prediction) : M (option Saved) :=
  psycopg2.cursor env ;;
  result <- psycopg2.execute_insert env image_name prediction
              confidence top_5 ;;
  psycopg2.commit env ;;
  match result with
  | Some (id, timestamp) =>
      ret (Some {| saved_id := id; saved_timestamp := Some timestamp |})
  | None => ret None
  end.

(** Its [except] block (lines 81-89): roll back if there is a
    connection, ignore a failure of that, return [None]. *)
Definition on_insert_error (env : Env) : M (option Saved) :=
  try_ (fun w => if not_connected w then (w, Ok tt)
                 else psycopg2.rollback env w)
       (fun _ => ret tt) ;;
  ret None.

(** [save_prediction].  [image_size] is accepted and not used. *)
Definition save_prediction (env : Env) (image_name prediction : string)
           (confidence : R) (top_5 : list Prediction)
           (image_size : option Z) : M (option Saved) :=
  connected <- ensure_connected env ;;
  if negb connected then ret None
  else
    try_ (insert_block env image_name prediction confidence top_5)
         (fun _ => on_insert_error env).

(** One row as [get_history] formats it. *)
Definition format_row (row : Row) : HistoryRecord :=
  {| h_id := row_id row;
     h_timestamp := Some (row_timestamp row);
     h_image_name := row_image_name row;
     h_prediction := row_prediction row;
     h_confidence := Some (row_confidence row);
     h_top_5_predictions := row_top_5_predictions row |}.

(** The [try] block of [get_history] (lines 106-145). *)
Definition select_block (env : Env) (limit offset : Z)
  : M (list HistoryRecord) :=
  psycopg2.cursor env ;;
  results <- psycopg2.execute_select env limit offset ;;
  ret (map format_row results).

(** [get_history]: the empty list when there is no connection or the
    query raises. *)
Definition get_history (env : Env) (limit offset : Z)
  : M (list HistoryRecord) :=
  connected <- ensure_connected env ;;
  if negb connected then ret []
  else try_ (select_block env limit offset) (fun _ => ret []).

(** The [try] block of [clear_history] (lines 166-171). *)
Definition delete_block (env : Env) : M Z :=
  psycopg2.cursor env ;;
  deleted_count <- psycopg2.execute_delete env ;;
  psycopg2.commit_delete env ;;
  ret deleted_count.

(** [clear_history]: the number of rows deleted, 0 when there is no
    connection or anything raises (after a rollback). *)
Definition clear_history (env : Env) : M Z :=
  connected <- ensure_connected env ;;
  if negb connected then ret 0
  else
    try_ (delete_block env)
         (fun _ =>
            try_ (fun w => if not_connected w then (w, Ok tt)
                           else psycopg2.rollback env w)
                 (fun _ => ret tt) ;;
            ret 0).

(** The dict [get_stats] returns when nothing raises. *)
Record Stats := {
  total_predictions : Z;
  avg_confidence : option R;
  most_common : option (string * Z)
}.

(** The [try] block of [get_stats] (lines 196-213). *)
Definition stats_block (env : Env) : M (option Stats) :=
  psycopg2.cursor env ;;
  totals <- psycopg2.execute_totals env ;;
  top <- psycopg2.execute_most_common env ;;
  ret (Some {| total_predictions := fst totals;
               avg_confidence := snd totals;
               most_common :=
                 match top with
                 | Some (prediction, class_count) =>
                     Some (prediction, Z.of_nat class_count)
                 | None => None
                 end |}).

(** [get_stats]: [None] stands for the empty dict of the two failure
    paths. *)
Definition get_stats (env : Env) : M (option Stats) :=
  connected <- ensure_connected env ;;
  if negb connected then ret None
  else try_ (stats_block env) (fun _ => ret None).

End Database.

(* ================================================================= *)
(** ** The service: app.py *)

Section App.

(** The preprocessed image (a tensor of shape (1,3,H,W)) and
    [preprocess_image], which decodes, resizes and normalises an upload
    with PIL and torchvision and raises on undecodable data. *)
Variable Tensor : Type.

(** An uploaded file (werkzeug's [FileStorage]): its name and bytes. *)
Record Upload := {
  filename : string;
  content : list ascii
}.

Variable preprocess_image : Upload -> Exc Tensor.

(** The loaded network: its forward pass on one image gives the logits
    of that image, or raises. *)
Definition Model : Type := Tensor -> Exc (list R).

(** The module's global variables, and the two constants the responses
    print. *)
Record Globals := {
  model : option Model;
  class_labels : option (list string);
  g_device : option string;
  num_classes : option nat
}.

Definition INPUT_SIZE : Z * Z := (224, 224).

Definition MAX_IMAGE_SIZE : Z := 10 * 1024 * 1024.

Definition initial_globals : Globals :=
  {| model := None; class_labels := None; g_device := None;
     num_classes := None |}.

(** *** Label store *)

(** What [load_labels] finds at [LABELS_PATH]: no file, a file that
    cannot be opened or parsed (anything that raises inside the [try]),
    or a JSON array of strings. *)
Inductive LabelFile :=
| LabelsMissing
| LabelsUnreadable
| LabelsParsed (labels : list string).

(** [[f"Class {i}" for i in range(n)]]. *)
Definition default_labels (n : nat) : list string :=
  map class_placeholder (seq 0 n).

Definition with_default_labels (g : Globals) : Globals :=
  let n := match num_classes g with
           | None => 1000%nat
           | Some n => n
           end in
  {| model := model g;
     class_labels := Some (default_labels n);
     g_device := g_device g;
     num_classes := Some n |}.

Definition load_labels (file : LabelFile) (g : Globals) : Globals :=
  match file with
  | LabelsParsed labels =>
      {| model := model g;
         class_labels := Some labels;
         g_device := g_device g;
         num_classes := Some (length labels) |}
  | LabelsMissing => with_default_labels g
  | LabelsUnreadable => with_default_labels g
  end.

(** *** Model loader *)

(** What torch finds at [MODEL_PATH].
    - [ck_device]: the device chosen, [None] when choosing it or building
      the architecture raises (the outer [try] of [load_model]);
    - [ck_inspect]: the first [torch.load], read for the classifier's
      row count: [None] when that raises, [Some None] when no classifier
      weight is found;
    - [ck_fresh]: the freshly built network, which the global [model]
      holds from line 116 on;
    - [ck_load n]: the network with a final layer of [n] outputs and the
      checkpoint's weights, [None] when loading them raises. *)
Record Checkpoint := {
  ck_device : option string;
  ck_inspect : option (option nat);
  ck_fresh : Model;
  ck_load : nat -> option Model
}.

Definition load_model (ck : Checkpoint) (g : Globals) : Globals * bool :=
  match ck_device ck with
  | None => (g, false)
  | Some dev =>
      let n := match num_classes g with
               | Some n => n
               | None =>
                   match ck_inspect ck with
                   | Some (Some inferred_num) => inferred_num
                   | _ => 1000%nat
                   end
               end in
      match ck_load ck n with
      | Some m =>
          ({| model := Some m; class_labels := class_labels g;
              g_device := Some dev; num_classes := Some n |}, true)
      | None =>
          ({| model := Some (ck_fresh ck); class_labels := class_labels g;
              g_device := Some dev; num_classes := Some n |}, false)
      end
  end.

(** *** Inference engine *)

(** [str(device)]. *)
Definition str_device (g : Globals) : string :=
  match g_device g with
  | None => "None"
  | Some d => d
  end.

(** [class_labels[idx] if class_labels and idx < len(class_labels)
    else f"Class {idx}"]. *)
Definition label_of (g : Globals) (idx : nat) : string :=
  match class_labels g with
  | None => class_placeholder idx
  | Some labels =>
      match nth_error labels idx with
      | Some l => l
      | None => class_placeholder idx
      end
  end.

Definition build_results (g : Globals) (top_idx : list nat)
           (top_scores : list R) : list Prediction :=
  map (fun p => {| class_id := fst p;
                   label := label_of g (fst p);
                   confidence := snd p |})
      (combine top_idx top_scores).

Definition predict (g : Globals) (image_tensor : Tensor) (top_k : Z)
  : PredictionResult :=
  match model g with
  | None => PredictError "Model not loaded"
  | Some m =>
      match m image_tensor with
      | Raise e => PredictError e
      | Ok outputs =>
          let probs := softmax outputs in
          let top_idx := top_indices Rleb probs top_k in
          match np_take probs top_idx with
          | None =>
              PredictError "index is out of bounds"
          | Some top_scores =>
              PredictOk (build_results g top_idx top_scores)
                {| device := str_device g;
                   input_shape :=
                     ("(1,3," ++ str_of_Z (fst INPUT_SIZE) ++ ","
                        ++ str_of_Z (snd INPUT_SIZE) ++ ")")%string;
                   mi_num_classes := num_classes g;
                   processing_time_ms := None |}
          end
      end
  end.

(** *** HTTP surface *)

(** The parts of a request the handlers read.  [form_top_k] is
    [request.form.get('top_k', ..., type=int)] before its default:
    [None] when the field is absent or is not an integer.  The two query
    parameters of [/history] are read the same way. *)
Record Request := {
  files_image : option Upload;
  form_top_k : option Z;
  args_limit : option Z;
  args_offset : option Z
}.

(** The JSON bodies of the responses. *)
Inductive Body :=
| ErrorBody (error : string)
| ResultBody (success : bool) (predictions : list Prediction)
             (model_info : ModelInfo) (file_name req_id : string)
             (history_record : option Saved)
| HistoryBody (history : list HistoryRecord)
| FailureBody (error : string)
| InfoBody (model_loaded : bool) (info_device : string)
           (info_num_classes : option nat) (labels_available : bool).

Record Response := {
  status : Z;
  body : Body
}.

Definition quote : string := String (ascii_of_nat 34) EmptyString.

(** [min(max(1, top_k), max_k)] with [max_k] as lines 408-414 choose
    it. *)
Definition max_k (g : Globals) : Z :=
  match num_classes g with
  | Some n => Z.of_nat n
  | None =>
      match class_labels g with
      | Some labels => Z.of_nat (length labels)
      | None => 1000
      end
  end.

Definition clamp_top_k (g : Globals) (top_k : Z) : Z :=
  Z.min (Z.max 1 top_k) (max_k g).

(** Lines 446-467: the best-effort write of the top prediction. *)
Definition persist_history (env : Env) (file : Upload) (file_size : Z)
           (result : PredictionResult) : M (option Saved) :=
  try_ ((fun w => if Database.not_connected w
                  then (Database.connect env ;; ret tt) w
                  else (w, Ok tt)) ;;
        match result with
        | PredictOk (top :: rest) _ =>
            Database.save_prediction env (filename file) (label top)
              (confidence top) (top :: rest) (Some file_size)
        | _ => ret None
        end)
       (fun _ => ret None).

Definition with_processing_time (t : R) (info : ModelInfo) : ModelInfo :=
  {| device := device info;
     input_shape := input_shape info;
     mi_num_classes := mi_num_classes info;
     processing_time_ms := Some t |}.

(** [POST /predict]. *)
Definition predict_endpoint (g : Globals) (env : Env) (req : Request)
  : M Response :=
  match model g with
  | None => ret {| status := 500; body := ErrorBody "Model not loaded" |}
  | Some _ =>
  match files_image req with
  | None =>
      ret {| status := 400;
             body := ErrorBody
               ("No image file provided. Please upload an image using the "
                  ++ quote ++ "image" ++ quote ++ " field.") |}
  | Some file =>
  if String.eqb (filename file) ""
  then ret {| status := 400; body := ErrorBody "Empty filename" |}
  else
  let file_size := Z.of_nat (length (content file)) in
  if file_size >? MAX_IMAGE_SIZE
  then ret {| status := 400;
              body := ErrorBody "File too large. Maximum size is 10.0MB" |}
  else
  let top_k := match form_top_k req with
               | Some k => k
               | None => 5
               end in
  let top_k := clamp_top_k g top_k in
  try_ (match preprocess_image file with
        | Raise e => raise e
        | Ok img_array =>
            let result := predict g img_array top_k in
            saved <- persist_history env file file_size result ;;
            match result with
            | PredictOk (top :: rest) info =>
                ret {| status := 200;
                       body := ResultBody true (top :: rest)
                                 (with_processing_time (elapsed_ms env) info)
                                 (filename file) (request_id env) saved |}
            | PredictOk [] _ => raise "list index out of range"
            | PredictError _ => raise "'predictions'"
            end
        end)
       (fun e => ret {| status := 500; body := ErrorBody e |})
  end
  end.

(** [GET /history]. *)
Definition get_history (env : Env) (req : Request) : M Response :=
  try_ (let limit := match args_limit req with
                     | Some l => l
                     | None => 50
                     end in
        let offset := match args_offset req with
                      | Some o => o
                      | None => 0
                      end in
        (fun w => if Database.not_connected w
                  then (Database.connect env ;; ret tt) w
                  else (w, Ok tt)) ;;
        history <- Database.get_history env limit offset ;;
        ret {| status := 200; body := HistoryBody history |})
       (fun e => ret {| status := 500; body := FailureBody e |}).

(** [GET /info]. *)
Definition model_info_endpoint (g : Globals) : Response :=
  match model g with
  | None => {| status := 500; body := FailureBody "Model not loaded" |}
  | Some _ =>
      {| status := 200;
         body := InfoBody true (str_device g) (num_classes g)
                   (match class_labels g with
                    | Some _ => true
                    | None => false
                    end) |}
  end.

(** *** Startup: the [__main__] block *)

Inductive Startup :=
| Exited (code : Z)
| Serving (g : Globals) (w : World).

Definition main (file : LabelFile) (ck : Checkpoint) (env : Env)
           (w : World) : Startup :=
  let g1 := load_labels file initial_globals in
  let '(g2, loaded) := load_model ck g1 in
  if loaded
  then Serving g2 (fst (try_ (Database.connect env ;; ret tt)
                             (fun _ => ret tt) w))
  else Exited 1.

(** *** More of the HTTP surface *)

(** The payload of [GET /health]. *)
Record HealthPayload := {
  health_status : string;
  model_loaded : bool;
  labels_loaded : bool;
  db_connected : bool
}.

Definition is_some {A : Type} (o : option A) : bool :=
  match o with
  | Some _ => true
  | None => false
  end.

(** Lines 320-330 of [health_check]: the store is reachable when there
    is a connection and a probe on it goes through.  A psycopg2
    connection has no [ping], so the probe is the [elif] branch: a
    cursor and [SELECT 1].  Nothing here connects. *)
Definition db_probe (env : Env) : M bool :=
  fun w =>
    if Database.not_connected w then (w, Ok false)
    else try_ (psycopg2.cursor env ;;
               psycopg2.execute_select_one env ;;
               ret true)
              (fun _ => ret false) w.

(** [GET /health]. *)
Definition health_check (g : Globals) (env : Env) : M (Z * HealthPayload) :=
  let model_ok := is_some (model g) in
  let labels_ok := is_some (class_labels g) in
  db_ok <- db_probe env ;;
  let healthy := model_ok && labels_ok && db_ok in
  ret (if healthy then 200 else 503,
       {| health_status := if healthy then "healthy" else "unhealthy";
          model_loaded := model_ok;
          labels_loaded := labels_ok;
          db_connected := db_ok |}).

(** The JSON bodies of [DELETE /history]. *)
Inductive ClearBody :=
| ClearedBody (message : string) (deleted_count : Z)
| ClearFailure (error : string).

(** [DELETE /history]. *)
Definition clear_history (env : Env) : M (Z * ClearBody) :=
  try_ ((fun w => if Database.not_connected w
                  then (Database.connect env ;; ret tt) w
                  else (w, Ok tt)) ;;
        deleted <- Database.clear_history env ;;
        ret (200, ClearedBody "History cleared" deleted))
       (fun e => ret (500, ClearFailure e)).

(** *** Reading the class count off a checkpoint (lines 118-148) *)

(** What [torch.load] may return, as far as [load_model] looks at it: a
    tensor with its shape, a dict with string keys in insertion order,
    or something else. *)
#[warnings="-register-all"]
Inductive PyValue :=
| PyTensor (shape : list nat)
| PyDict (items : list (string * PyValue))
| PyOther.

(** [k.endswith(suffix)] and [pattern in k]. *)
Definition endswith (k suffix : string) : bool :=
  (String.length suffix <=? String.length k)%nat &&
  String.eqb (substring (String.length k - String.length suffix)
                        (String.length suffix) k) suffix.

Fixpoint contains (pattern k : string) : bool :=
  prefix pattern k ||
  match k with
  | EmptyString => false
  | String _ rest => contains pattern rest
  end.

(** [saved[key]] for a key that may be missing. *)
Fixpoint dict_get (key : string) (items : list (string * PyValue))
  : option PyValue :=
  match items with
  | [] => None
  | (k, v) :: rest => if String.eqb k key then Some v else dict_get key rest
  end.

(** Lines 122-127: the mapping that is searched. *)
Definition saved_state_of (saved : PyValue)
  : option (list (string * PyValue)) :=
  match saved with
  | PyDict items =>
      match dict_get "state_dict" items with
      | Some (PyDict inner) => Some inner
      | _ => Some items
      end
  | _ => None
  end.

(** Lines 131-137: the first entry whose name ends in [.weight] and
    holds [classifier] decides, unless reading [v.shape[0]] raises (the
    value is no tensor or has no dimension), in which case the search
    goes on. *)
Fixpoint scan_classifier (items : list (string * PyValue)) : option nat :=
  match items with
  | [] => None
  | (k, v) :: rest =>
      if endswith k ".weight" && contains "classifier" k
      then match v with
           | PyTensor (d :: _) => Some d
           | _ => scan_classifier rest
           end
      else scan_classifier rest
  end.

Definition infer_num_classes (saved : PyValue) : option nat :=
  match saved_state_of saved with
  | Some items => scan_classifier items
  | None => None
  end.

(** Lines 118-148: the class count [load_model] settles on, from the
    count known so far and the outcome of the first [torch.load]. *)
Definition resolve_num_classes (known : option nat) (loaded : Exc PyValue)
  : nat :=
  match known with
  | Some n => n
  | None =>
      match loaded with
      | Raise _ => 1000%nat
      | Ok saved =>
          match infer_num_classes saved with
          | Some inferred_num => inferred_num
          | None => 1000%nat
          end
      end
  end.

(* ================================================================= *)
(** ** Predicates the properties are stated with *)

(** The order [argsort] sorts index-value pairs by. *)
Definition by_value {A : Type} (leb : A -> A -> bool) (p q : nat * A)
  : bool := leb (snd p) (snd q).

(** [p] may stand before [q] in a stable ascending sort: its value is
    below or equal, and on equal values its index is the smaller. *)
Definition pair_before {A : Type} (leb : A -> A -> bool) (p q : nat * A)
  : Prop :=
  leb (snd p) (snd q) = true /\
  (leb (snd q) (snd p) = true -> (fst p < fst q)%nat).

(** The same on the indices of an array [a]. *)
Definition rank_before {A : Type} (leb : A -> A -> bool) (a : list A)
           (i j : nat) : Prop :=
  exists x y,
    nth_error a i = Some x /\ nth_error a j = Some y /\
    leb x y = true /\ (leb y x = true -> (i < j)%nat).

(** The tie rule as spec 4.4 words it: of two selected classes with
    equal probability the one with the lower index is ranked first. *)
Definition ties_lower_index_first {A : Type} (leb : A -> A -> bool)
           (probs : list A) (k : Z) : Prop :=
  forall p q i j x y,
    nth_error (top_indices leb probs k) p = Some i ->
    nth_error (top_indices leb probs k) q = Some j ->
    nth_error probs i = Some x -> nth_error probs j = Some y ->
    leb x y = true -> leb y x = true ->
    (i < j)%nat -> (p < q)%nat.

(** The tie rule of a stable ascending sort read backwards: the one with
    the higher index is ranked first. *)
Definition ties_higher_index_first {A : Type} (leb : A -> A -> bool)
           (probs : list A) (k : Z) : Prop :=
  forall p q i j x y,
    nth_error (top_indices leb probs k) p = Some i ->
    nth_error (top_indices leb probs k) q = Some j ->
    nth_error probs i = Some x -> nth_error probs j = Some y ->
    leb x y = true -> leb y x = true ->
    (i < j)%nat -> (q < p)%nat.

(** Entries in descending order of confidence. *)
Definition descending_confidence (preds : list Prediction) : Prop :=
  forall p q a b,
    (p < q)%nat -> nth_error preds p = Some a -> nth_error preds q = Some b ->
    (confidence b <= confidence a)%R.

(** Every forward pass of the loaded network yields [n] logits: what
    [load_model] arranges by sizing the final layer to [num_classes]. *)
Definition model_outputs (g : Globals) (n : nat) : Prop :=
  forall m x logits,
    model g = Some m -> m x = Ok logits -> length logits = n.

(** No row inserted and left uncommitted on the connection. *)
Definition quiescent (w : World) : Prop :=
  match conn w with
  | None => True
  | Some c => pending c = []
  end.

(** The predictions a response carries. *)
Definition response_predictions (r : Response) : list Prediction :=
  match body r with
  | ResultBody _ preds _ _ _ _ => preds
  | _ => []
  end.

(** The row an insert writes: the id and timestamp the server gives,
    and the four values [save_prediction] passes. *)
Definition inserted_row (id timestamp : Z) (name pred : string) (conf : R)
           (top5 : list Prediction) : Row :=
  {| row_id := id;
     row_timestamp := timestamp;
     row_image_name := name;
     row_prediction := pred;
     row_confidence := conf;
     row_top_5_predictions := top5 |}.

(** The page of the history that [limit] and [offset] name: the rows,
    most recent first, without the first [offset], and then at most
    [limit] of them. *)
Definition history_page (rows : list Row) (limit offset : Z)
  : list HistoryRecord :=
  map Database.format_row
      (firstn (Z.to_nat limit)
              (skipn (Z.to_nat offset) (order_by_timestamp_desc rows))).

(** Records in descending order of timestamp. *)
Definition newest_first (h : list HistoryRecord) : Prop :=
  forall p q a b,
    (p < q)%nat -> nth_error h p = Some a -> nth_error h q = Some b ->
    exists ta tb,
      h_timestamp a = Some ta /\ h_timestamp b = Some tb /\ tb <= ta.

(** The connection, if there is one, is not inside an aborted
    transaction. *)
Definition usable (w : World) : Prop :=
  match conn w with
  | None => True
  | Some c => tx c <> TxFailed
  end.

(** The request with its [top_k] form field replaced. *)
Definition with_top_k (k : option Z) (req : Request) : Request :=
  {| files_image := files_image req;
     form_top_k := k;
     args_limit := args_limit req;
     args_offset := args_offset req |}.

(** The label set is the synthesized one: [num_classes] placeholders
    ["Class 0"], ["Class 1"], ... *)
Definition placeholder_labels (g : Globals) : Prop :=
  exists n labels,
    num_classes g = Some n /\ class_labels g = Some labels /\
    length labels = n /\
    forall i, (i < n)%nat -> nth_error labels i = Some (class_placeholder i).

End App.

Arguments Build_Globals {Tensor} model class_labels g_device num_classes.
Arguments model {Tensor} g.
Arguments class_labels {Tensor} g.
Arguments g_device {Tensor} g.
Arguments num_classes {Tensor} g.
Arguments load_labels {Tensor} file g.
Arguments load_model {Tensor} ck g.
Arguments main {Tensor} file ck env w.
Arguments placeholder_labels {Tensor} g.
Arguments model_info_endpoint {Tensor} g.
Arguments Serving {Tensor} g w.
Arguments Exited {Tensor} code.
Arguments Build_Checkpoint {Tensor} ck_device ck_inspect ck_fresh ck_load.
Arguments predict {Tensor} g image_tensor top_k.
Arguments predict_endpoint {Tensor} preprocess_image g env req _.
Arguments model_outputs {Tensor} g n.
Arguments clamp_top_k {Tensor} g top_k.
Arguments initial_globals {Tensor}.
Arguments with_default_labels {Tensor} g.
Arguments str_device {Tensor} g.
Arguments label_of {Tensor} g idx.
Arguments build_results {Tensor} g top_idx top_scores.
Arguments max_k {Tensor} g.
Arguments ck_device {Tensor} c.
Arguments ck_inspect {Tensor} c.
Arguments ck_fresh {Tensor} c.
Arguments ck_load {Tensor} c _.
Arguments health_check {Tensor} g env _.

(* ================================================================= *)
(** ** A small instance for concrete runs *)

(** A one-class service: every image is accepted, and the network gives
    the single logit 0. *)
Definition demo_upload : Upload :=
  {| filename := "leaf.jpg"; content := ["a"%char; "b"%char] |}.

Definition demo_preprocess (u : Upload) : Exc unit := Ok tt.

Definition demo_model : Model unit := fun _ => Ok [0%R].

Definition demo_globals : Globals unit :=
  {| model := Some demo_model;
     class_labels := Some ["leaf"%string];
     g_device := Some "cpu"%string;
     num_classes := Some 1%nat |}.

Definition demo_request (k : option Z) : Request :=
  {| files_image := Some demo_upload;
     form_top_k := k;
     args_limit := None;
     args_offset := None |}.

(** A store that answers every call, and one that fails every call. *)
Definition calm_env : Env :=
  {| faults := fun _ => false; now := 1000; request_id := "r-1";
     elapsed_ms := 12%R |}.

Definition outage_env : Env :=
  {| faults := fun _ => true; now := 1000; request_id := "r-1";
     elapsed_ms := 12%R |}.

(** A store whose third call (the commit of the insert, on an open
    connection) fails. *)
Definition commit_fails_env : Env :=
  {| faults := fun i => Nat.eqb i 2; now := 1000; request_id := "r-1";
     elapsed_ms := 12%R |}.

Definition empty_world : World :=
  {| conn := None; table := []; next_id := 1; calls := 0 |}.

Definition demo_row (id timestamp : Z) : Row :=
  inserted_row id timestamp "leaf.jpg" "leaf" 1%R [].

(** An open, idle connection and a table of two rows, the older one
    stored first. *)
Definition two_row_world : World :=
  {| conn := Some {| tx := TxIdle; pending := [] |};
     table := [demo_row 1 10; demo_row 2 20];
     next_id := 3;
     calls := 0 |}.

Definition demo_top : Prediction :=
  {| class_id := 0;
     label := "leaf";
     confidence := (exp 0 / Rsum (map exp [0%R]))%R |}.

Definition demo_info : ModelInfo :=
  {| device := "cpu";
     input_shape := "(1,3,224,224)";
     mi_num_classes := Some 1%nat;
     processing_time_ms := None |}.

(** A successful request on the empty store: connection, table check,
    insert and commit are calls 0 to 6. *)
Definition demo_world_after : World :=
  {| conn := Some {| tx := TxIdle; pending := [] |};
     table := [inserted_row 1 1000 "leaf.jpg" "leaf"
                 (confidence demo_top) [demo_top]];
     next_id := 2;
     calls := 7 |}.

Definition demo_response : Response :=
  {| status := 200;
     body := ResultBody true [demo_top]
               (with_processing_time 12%R demo_info)
               "leaf.jpg" "r-1"
               (Some {| saved_id := 1; saved_timestamp := Some 1000 |}) |}.

(** A two-class service: the network gives the logits 0 and 1, so
    class 1 is the likelier one. *)
Definition pair_model : Model unit := fun _ => Ok [0%R; 1%R].

Definition pair_globals : Globals unit :=
  {| model := Some pair_model;
     class_labels := Some ["ash"%string; "birch"%string];
     g_device := Some "cpu"%string;
     num_classes := Some 2%nat |}.

Definition ash : Prediction :=
  {| class_id := 0;
     label := "ash";
     confidence := (exp 0 / Rsum [exp 0; exp 1])%R |}.

Definition birch : Prediction :=
  {| class_id := 1;
     label := "birch";
     confidence := (exp 1 / Rsum [exp 0; exp 1])%R |}.

Definition pair_info : ModelInfo :=
  {| device := "cpu";
     input_shape := "(1,3,224,224)";
     mi_num_classes := Some 2%nat;
     processing_time_ms := None |}.

(** Startup without a label file and with a checkpoint that loads. *)
Definition demo_checkpoint : Checkpoint unit :=
  {| ck_device := Some "cpu"%string;
     ck_inspect := Some (Some 50%nat);
     ck_fresh := demo_model;
     ck_load := fun _ => Some demo_model |}.

(** A checkpoint of 50 classes: its weights load only into a network
    whose final layer has 50 outputs. *)
Definition fifty_class_checkpoint : Checkpoint unit :=
  {| ck_device := Some "cpu"%string;
     ck_inspect := Some (Some 50%nat);
     ck_fresh := demo_model;
     ck_load := fun n => if Nat.eqb n 50 then Some demo_model else None |}.

(* ================================================================= *)
(** * Properties *)

(** ** The stable sort and the index selection *)

Section SortFacts.

Variable A : Type.
Variable leb : A -> A -> bool.
Hypothesis leb_total : forall x y, leb x y = true \/ leb y x = true.
Hypothesis leb_trans :
  forall x y z, leb x y = true -> leb y z = true -> leb x z = true.

Lemma insert_by_perm (le : A -> A -> bool) (x : A) (l : list A) :
  Permutation (insert_by le x l) (x :: l).
Proof.
  induction l as [|y ys IH]; simpl.
  - apply Permutation_refl.
  - destruct (le x y).
    + apply Permutation_refl.
    + eapply Permutation_trans.
      * apply perm_skip, IH.
      * apply perm_swap.
Qed.

Lemma stable_sort_perm (le : A -> A -> bool) (l : list A) :
  Permutation (stable_sort le l) l.
Proof.
  induction l as [|x xs IH]; simpl.
  - apply Permutation_refl.
  - eapply Permutation_trans.
    + apply insert_by_perm.
    + apply perm_skip, IH.
Qed.

Lemma insert_by_sorted (x : A) (l : list A) :
  StronglySorted (fun a b => leb a b = true) l ->
  StronglySorted (fun a b => leb a b = true) (insert_by leb x l).
Proof.
  induction 1 as [|y ys Hs IH Hall]; simpl.
  - constructor; constructor.
  - destruct (leb x y) eqn:E.
    + constructor.
      * constructor; assumption.
      * constructor; [assumption|].
        eapply Forall_impl; [|exact Hall].
        intros z Hz. eapply leb_trans; eassumption.
    + constructor; [assumption|].
      assert (Hyx : leb y x = true)
        by (destruct (leb_total x y); congruence).
      eapply Permutation_Forall.
      * apply Permutation_sym, insert_by_perm.
      * constructor; assumption.
Qed.

Lemma stable_sort_sorted (l : list A) :
  StronglySorted (fun a b => leb a b = true) (stable_sort leb l).
Proof.
  induction l as [|x xs IH]; simpl.
  - constructor.
  - apply insert_by_sorted, IH.
Qed.

End SortFacts.

(** Sorting index-value pairs by value: among the pairs with equal
    values the one with the smaller index comes first. *)
Section ArgsortFacts.

Variable A : Type.
Variable leb : A -> A -> bool.
Hypothesis leb_total : forall x y, leb x y = true \/ leb y x = true.
Hypothesis leb_trans :
  forall x y z, leb x y = true -> leb y z = true -> leb x z = true.


Lemma insert_pair_before (x : nat * A) (l : list (nat * A)) :
  StronglySorted (pair_before leb) l ->
  Forall (fun q => (fst x < fst q)%nat) l ->
  StronglySorted (pair_before leb) (insert_by (by_value leb) x l).
Proof.
  induction 1 as [|y ys Hs IH Hall]; intros Hidx; simpl.
  - constructor; constructor.
  - inversion Hidx as [|? ? Hxy Hxys]; subst.
    unfold by_value at 1.
    destruct (leb (snd x) (snd y)) eqn:E.
    + constructor.
      * constructor; assumption.
      * constructor.
        -- split; [assumption | intros _; assumption].
        -- rewrite Forall_forall in Hall, Hxys |- *.
           intros z Hz. destruct (Hall z Hz) as [Hyz _]. split.
           ++ eapply leb_trans; eassumption.
           ++ intros _. apply Hxys, Hz.
    + constructor; [apply IH; assumption|].
      eapply Permutation_Forall.
      * apply Permutation_sym, insert_by_perm.
      * constructor; [|assumption].
        split.
        -- destruct (leb_total (snd x) (snd y)); congruence.
        -- intros Hc. congruence.
Qed.

Lemma sort_pairs_before (l : list (nat * A)) :
  StronglySorted (fun p q => (fst p < fst q)%nat) l ->
  StronglySorted (pair_before leb) (stable_sort (by_value leb) l).
Proof.
  induction 1 as [|x xs Hs IH Hall]; simpl.
  - constructor.
  - apply insert_pair_before; [assumption|].
    eapply Permutation_Forall; [|exact Hall].
    apply Permutation_sym, stable_sort_perm.
Qed.

End ArgsortFacts.

Section TopKFacts.

Variable A : Type.
Variable leb : A -> A -> bool.
Hypothesis leb_total : forall x y, leb x y = true \/ leb y x = true.
Hypothesis leb_trans :
  forall x y z, leb x y = true -> leb y z = true -> leb x z = true.

Lemma combine_seq_increasing (a : list A) (s : nat) :
  StronglySorted (fun p q : nat * A => (fst p < fst q)%nat)
                 (combine (seq s (length a)) a).
Proof.
  revert s. induction a as [|x xs IH]; intros s; simpl.
  - constructor.
  - constructor; [apply IH|].
    rewrite Forall_forall. intros [i y] Hin. simpl.
    apply in_combine_l, in_seq in Hin. lia.
Qed.

Lemma combine_seq_lookup (a : list A) (s i : nat) (x : A) :
  In (i, x) (combine (seq s (length a)) a) ->
  (s <= i)%nat /\ nth_error a (i - s) = Some x.
Proof.
  revert s. induction a as [|y ys IH]; intros s; simpl.
  - intros [].
  - intros [H | H].
    + inversion H; subst. rewrite Nat.sub_diag. split; [lia | reflexivity].
    + apply IH in H. destruct H as [Hle Hnth]. split; [lia|].
      replace (i - s)%nat with (S (i - S s)) by lia. exact Hnth.
Qed.

Lemma map_fst_combine_seq (a : list A) (s : nat) :
  map fst (combine (seq s (length a)) a) = seq s (length a).
Proof.
  revert s. induction a as [|x xs IH]; intros s; simpl.
  - reflexivity.
  - f_equal. apply IH.
Qed.

Lemma argsort_perm (le : A -> A -> bool) (a : list A) :
  Permutation (argsort le a) (seq 0 (length a)).
Proof.
  unfold argsort. rewrite <- (map_fst_combine_seq a 0) at 2.
  apply Permutation_map, stable_sort_perm.
Qed.

Lemma argsort_length (le : A -> A -> bool) (a : list A) :
  length (argsort le a) = length a.
Proof.
  rewrite (Permutation_length (argsort_perm le a)). apply length_seq.
Qed.

Lemma argsort_in_range (le : A -> A -> bool) (a : list A) (i : nat) :
  In i (argsort le a) -> (i < length a)%nat.
Proof.
  intros H. apply (Permutation_in _ (argsort_perm le a)) in H.
  apply in_seq in H. lia.
Qed.

Lemma argsort_sorted (a : list A) :
  StronglySorted (rank_before leb a) (argsort leb a).
Proof.
  unfold argsort.
  pose proof (sort_pairs_before A leb leb_total leb_trans _
                (combine_seq_increasing a 0)) as Hs.
  assert (Hin : Forall (fun p => nth_error a (fst p) = Some (snd p))
                  (stable_sort (by_value leb)
                     (combine (seq 0 (length a)) a))).
  { eapply Permutation_Forall.
    - apply Permutation_sym, stable_sort_perm.
    - rewrite Forall_forall. intros [i x] Hp. simpl.
      apply combine_seq_lookup in Hp. destruct Hp as [_ Hp].
      rewrite Nat.sub_0_r in Hp. exact Hp. }
  change (fun p q : nat * A => leb (snd p) (snd q)) with (by_value leb).
  induction Hs as [|p ps Hs IH Hall]; simpl.
  - constructor.
  - inversion Hin as [|? ? Hp Hps]; subst.
    constructor; [apply IH; assumption|].
    rewrite Forall_forall in Hall, Hps |- *.
    intros j Hj. apply in_map_iff in Hj. destruct Hj as [q [<- Hq]].
    destruct (Hall q Hq) as [H1 H2].
    exists (snd p), (snd q). repeat split; auto.
Qed.

End TopKFacts.

Section ListFacts.

Variable A : Type.

Lemma StronglySorted_impl_aux (R S : A -> A -> Prop) (l : list A) :
  (forall a b, R a b -> S a b) ->
  StronglySorted R l -> StronglySorted S l.
Proof.
  intros HRS. induction 1 as [|x xs Hs IH Hall]; constructor.
  - exact IH.
  - eapply Forall_impl; [|exact Hall]. intros b. apply HRS.
Qed.

Lemma In_of_firstn (n : nat) (l : list A) (x : A) :
  In x (firstn n l) -> In x l.
Proof.
  revert l. induction n as [|n IH]; intros l H; simpl in H.
  - destruct H.
  - destruct l as [|y ys]; [destruct H|].
    destruct H as [H | H]; [left; exact H | right; apply IH, H].
Qed.

Lemma In_of_skipn (n : nat) (l : list A) (x : A) :
  In x (skipn n l) -> In x l.
Proof.
  revert l. induction n as [|n IH]; intros l H; simpl in H.
  - exact H.
  - destruct l as [|y ys]; [destruct H|]. right. apply IH, H.
Qed.

Lemma StronglySorted_skipn (R : A -> A -> Prop) (n : nat) (l : list A) :
  StronglySorted R l -> StronglySorted R (skipn n l).
Proof.
  revert l. induction n as [|n IH]; intros l H; simpl.
  - exact H.
  - destruct l as [|x xs]; [constructor|].
    apply IH. inversion H; assumption.
Qed.

Lemma StronglySorted_firstn (R : A -> A -> Prop) (n : nat) (l : list A) :
  StronglySorted R l -> StronglySorted R (firstn n l).
Proof.
  revert l. induction n as [|n IH]; intros l H; simpl.
  - constructor.
  - destruct l as [|x xs]; [constructor|].
    inversion H as [|? ? Hs Hall]; subst. constructor.
    + apply IH, Hs.
    + rewrite Forall_forall in *. intros y Hy.
      apply Hall. eapply In_of_firstn; exact Hy.
Qed.

Lemma StronglySorted_snoc (R : A -> A -> Prop) (l : list A) (x : A) :
  StronglySorted R l -> Forall (fun y => R y x) l ->
  StronglySorted R (l ++ [x]).
Proof.
  induction 1 as [|y ys Hs IH Hall]; intros Hx; simpl.
  - constructor; constructor.
  - inversion Hx; subst. constructor.
    + apply IH; assumption.
    + apply Forall_app. split; [assumption|]. constructor; auto.
Qed.

Lemma StronglySorted_rev (R : A -> A -> Prop) (l : list A) :
  StronglySorted R l -> StronglySorted (fun a b => R b a) (rev l).
Proof.
  induction 1 as [|x xs Hs IH Hall]; simpl.
  - constructor.
  - apply StronglySorted_snoc; [exact IH|].
    rewrite Forall_forall in *. intros y Hy.
    apply Hall. apply in_rev. exact Hy.
Qed.

Lemma StronglySorted_nth_error (R : A -> A -> Prop) (l : list A) :
  StronglySorted R l ->
  forall p q a b,
    (p < q)%nat -> nth_error l p = Some a -> nth_error l q = Some b ->
    R a b.
Proof.
  induction 1 as [|x xs Hs IH Hall]; intros p q a b Hpq Hp Hq.
  - destruct p; discriminate.
  - destruct q as [|q]; [lia|]. simpl in Hq.
    destruct p as [|p]; simpl in Hp.
    + inversion Hp; subst. rewrite Forall_forall in Hall.
      apply Hall. eapply nth_error_In; exact Hq.
    + apply (IH p q); [lia | assumption | assumption].
Qed.

Lemma py_slice_from_is_skipn (start : Z) (l : list A) :
  exists n, py_slice_from start l = skipn n l.
Proof.
  unfold py_slice_from. destruct (start <? 0); eexists; reflexivity.
Qed.

Lemma py_slice_from_length (start : Z) (l : list A) :
  Z.of_nat (length (py_slice_from start l)) =
  if start <? 0
  then Z.min (- start) (Z.of_nat (length l))
  else Z.of_nat (length l) - Z.min start (Z.of_nat (length l)).
Proof.
  unfold py_slice_from.
  destruct (start <? 0) eqn:E; rewrite length_skipn.
  - apply Z.ltb_lt in E. lia.
  - apply Z.ltb_ge in E. lia.
Qed.

Lemma np_take_spec (a : list A) (indices : list nat) :
  Forall (fun i => (i < length a)%nat) indices ->
  exists xs,
    np_take a indices = Some xs /\
    length xs = length indices /\
    forall p i, nth_error indices p = Some i ->
                nth_error xs p = nth_error a i.
Proof.
  induction 1 as [|i rest Hi Hrest IH]; simpl.
  - exists []. repeat split; auto. intros [|p] i H; discriminate.
  - destruct IH as [xs [Hxs [Hlen Hnth]]].
    destruct (nth_error a i) as [x|] eqn:Ex.
    + rewrite Hxs. exists (x :: xs). repeat split.
      * simpl. congruence.
      * intros [|p] j Hj; simpl in *.
        -- inversion Hj; subst. symmetry. exact Ex.
        -- apply Hnth. exact Hj.
    + apply nth_error_None in Ex. lia.
Qed.

End ListFacts.

Section SelectionFacts.

Variable A : Type.
Variable leb : A -> A -> bool.
Hypothesis leb_total : forall x y, leb x y = true \/ leb y x = true.
Hypothesis leb_trans :
  forall x y z, leb x y = true -> leb y z = true -> leb x z = true.

Lemma top_indices_length (le : A -> A -> bool) (a : list A) (k : Z) :
  Z.of_nat (length (top_indices le a k)) =
  if 0 <? k
  then Z.min k (Z.of_nat (length a))
  else Z.of_nat (length a) - Z.min (- k) (Z.of_nat (length a)).
Proof.
  unfold top_indices. rewrite length_rev, py_slice_from_length.
  rewrite argsort_length.
  destruct (- k <? 0) eqn:E1, (0 <? k) eqn:E2;
    try apply Z.ltb_lt in E1; try apply Z.ltb_lt in E2;
    try apply Z.ltb_ge in E1; try apply Z.ltb_ge in E2; lia.
Qed.

Lemma top_indices_in_range (le : A -> A -> bool) (a : list A) (k : Z) :
  Forall (fun i => (i < length a)%nat) (top_indices le a k).
Proof.
  rewrite Forall_forall. intros i Hi. unfold top_indices in Hi.
  apply in_rev in Hi.
  destruct (py_slice_from_is_skipn nat (- k) (argsort le a)) as [n Hn].
  rewrite Hn in Hi. apply (argsort_in_range A le).
  eapply In_of_skipn; exact Hi.
Qed.

(** The ranking [top_indices] gives: from one position to a later one
    the value does not grow, and on equal values the index falls. *)
Lemma top_indices_sorted (a : list A) (k : Z) :
  StronglySorted (fun i j => rank_before leb a j i) (top_indices leb a k).
Proof.
  unfold top_indices.
  apply (StronglySorted_rev nat (rank_before leb a)).
  destruct (py_slice_from_is_skipn nat (- k) (argsort leb a)) as [n Hn].
  rewrite Hn. apply StronglySorted_skipn.
  apply argsort_sorted; assumption.
Qed.

End SelectionFacts.

(** ** Softmax over the reals *)

Lemma Rleb_total (x y : R) : Rleb x y = true \/ Rleb y x = true.
Proof.
  unfold Rleb. destruct (Rle_dec x y); [left; reflexivity|].
  destruct (Rle_dec y x); [right; reflexivity|]. lra.
Qed.

Lemma Rleb_trans (x y z : R) :
  Rleb x y = true -> Rleb y z = true -> Rleb x z = true.
Proof.
  unfold Rleb.
  destruct (Rle_dec x y), (Rle_dec y z), (Rle_dec x z);
    intros; try reflexivity; try discriminate. lra.
Qed.

Lemma Rleb_le (x y : R) : Rleb x y = true -> (x <= y)%R.
Proof.
  unfold Rleb. destruct (Rle_dec x y); [auto | discriminate].
Qed.

Lemma Rsum_exp_nonneg (l : list R) : (0 <= Rsum (map exp l))%R.
Proof.
  induction l as [|x xs IH]; simpl.
  - lra.
  - pose proof (exp_pos x). lra.
Qed.

Lemma exp_le_Rsum (l : list R) (x : R) :
  In x l -> (exp x <= Rsum (map exp l))%R.
Proof.
  induction l as [|y ys IH]; simpl.
  - intros [].
  - intros [-> | H].
    + pose proof (Rsum_exp_nonneg ys). lra.
    + pose proof (exp_pos y). specialize (IH H). lra.
Qed.

Lemma softmax_length (l : list R) : length (softmax l) = length l.
Proof. unfold softmax. apply length_map. Qed.

Lemma softmax_range (l : list R) (p : R) :
  In p (softmax l) -> (0 <= p <= 1)%R.
Proof.
  unfold softmax. intros H. apply in_map_iff in H.
  destruct H as [x [<- Hx]].
  pose proof (exp_pos x) as Hpos.
  pose proof (exp_le_Rsum l x Hx) as Hle.
  assert (Hs : (0 < Rsum (map exp l))%R) by lra.
  split.
  - apply Rlt_le, Rdiv_lt_0_compat; assumption.
  - apply Rmult_le_reg_r with (r := Rsum (map exp l)); [exact Hs|].
    unfold Rdiv. rewrite Rmult_assoc, Rinv_l by lra. lra.
Qed.

Section AppFacts.

Variable Tensor : Type.
Variable preprocess_image : Upload -> Exc Tensor.

(** ** The inference engine *)

Lemma build_results_length (g : Globals Tensor) (idx : list nat) (scores : list R) :
  length scores = length idx ->
  length (build_results g idx scores) = length idx.
Proof.
  intros H. unfold build_results.
  rewrite length_map, length_combine. lia.
Qed.

Lemma build_results_nth (g : Globals Tensor) (idx : list nat) (scores : list R)
      (p : nat) (a : Prediction) :
  nth_error (build_results g idx scores) p = Some a ->
  exists i s,
    nth_error idx p = Some i /\ nth_error scores p = Some s /\
    class_id a = i /\ label a = label_of g i /\ confidence a = s.
Proof.
  unfold build_results. revert scores p.
  induction idx as [|i idx IH]; intros scores p H.
  - destruct p; discriminate.
  - destruct scores as [|s scores]; [destruct p; discriminate|].
    destruct p as [|p]; simpl in H.
    + inversion H; subst. exists i, s. simpl. repeat split.
    + apply IH in H. exact H.
Qed.

(** What a successful [predict] is made of. *)
Lemma predict_inversion (g : Globals Tensor) (x : Tensor) (k : Z)
      (preds : list Prediction) (info : ModelInfo) :
  predict g x k = PredictOk preds info ->
  exists m outputs scores,
    model g = Some m /\ m x = Ok outputs /\
    np_take (softmax outputs) (top_indices Rleb (softmax outputs) k)
      = Some scores /\
    preds = build_results g (top_indices Rleb (softmax outputs) k) scores /\
    mi_num_classes info = num_classes g.
Proof.
  unfold predict. intros H.
  destruct (model g) as [m|]; [|discriminate].
  destruct (m x) as [outputs|e] eqn:Ex; [|discriminate].
  destruct (np_take (softmax outputs)
              (top_indices Rleb (softmax outputs) k)) as [scores|] eqn:E;
    [|discriminate].
  inversion H; subst. exists m, outputs, scores.
  repeat split; auto.
Qed.

(** A forward pass that returns makes [predict] succeed: the indices it
    selects are always in range. *)
Lemma predict_succeeds (g : Globals Tensor) (m : Model Tensor) (x : Tensor) (k : Z)
      (outputs : list R) :
  model g = Some m -> m x = Ok outputs ->
  exists preds info, predict g x k = PredictOk preds info.
Proof.
  intros Hm Hx. unfold predict. rewrite Hm, Hx.
  destruct (np_take_spec R (softmax outputs)
              (top_indices Rleb (softmax outputs) k)
              (top_indices_in_range R Rleb (softmax outputs) k))
    as [xs [Hxs _]].
  rewrite Hxs. eexists; eexists; reflexivity.
Qed.

Lemma predict_entry (g : Globals Tensor) (x : Tensor) (k : Z)
      (preds : list Prediction) (info : ModelInfo) :
  predict g x k = PredictOk preds info ->
  exists outputs m,
    model g = Some m /\ m x = Ok outputs /\
    length preds = length (top_indices Rleb (softmax outputs) k) /\
    forall p a,
      nth_error preds p = Some a ->
      nth_error (top_indices Rleb (softmax outputs) k) p
        = Some (class_id a) /\
      nth_error (softmax outputs) (class_id a) = Some (confidence a) /\
      label a = label_of g (class_id a).
Proof.
  intros H. apply predict_inversion in H.
  destruct H as [m [outputs [scores [Hm [Hx [Htake [-> _]]]]]]].
  destruct (np_take_spec R (softmax outputs)
              (top_indices Rleb (softmax outputs) k)
              (top_indices_in_range R Rleb (softmax outputs) k))
    as [xs [Hxs [Hlen Hnth]]].
  rewrite Htake in Hxs. inversion Hxs; subst xs.
  exists outputs, m. repeat split; auto.
  - apply build_results_length. exact Hlen.
  - apply build_results_nth in H.
    destruct H as [i [s [Hi [Hs [Hc _]]]]]. congruence.
  - apply build_results_nth in H.
    destruct H as [i [s [Hi [Hs [Hc [_ Hconf]]]]]].
    subst i. rewrite <- (Hnth p (class_id a) Hi). congruence.
  - apply build_results_nth in H.
    destruct H as [i [s [_ [_ [Hc [Hl _]]]]]]. congruence.
Qed.

Lemma predict_range (g : Globals Tensor) (x : Tensor) (k : Z)
      (preds : list Prediction) (info : ModelInfo) :
  predict g x k = PredictOk preds info ->
  Forall (fun a => (0 <= confidence a <= 1)%R) preds.
Proof.
  intros H. apply predict_entry in H.
  destruct H as [outputs [m [_ [_ [_ Hent]]]]].
  rewrite Forall_forall. intros a Ha.
  apply In_nth_error in Ha. destruct Ha as [p Hp].
  destruct (Hent p a Hp) as [_ [Hs _]].
  apply (softmax_range outputs). eapply nth_error_In; exact Hs.
Qed.

Lemma predict_descending (g : Globals Tensor) (x : Tensor) (k : Z)
      (preds : list Prediction) (info : ModelInfo) :
  predict g x k = PredictOk preds info -> descending_confidence preds.
Proof.
  intros H. apply predict_entry in H.
  destruct H as [outputs [m [_ [_ [_ Hent]]]]].
  intros p q a b Hpq Ha Hb.
  destruct (Hent p a Ha) as [Hia [Hsa _]].
  destruct (Hent q b Hb) as [Hib [Hsb _]].
  pose proof (StronglySorted_nth_error nat _ _
                (top_indices_sorted R Rleb Rleb_total Rleb_trans
                   (softmax outputs) k)
                p q _ _ Hpq Hia Hib) as Hr.
  destruct Hr as [u [v [Hu [Hv [Huv _]]]]].
  apply Rleb_le in Huv. congruence.
Qed.

Lemma predict_count (g : Globals Tensor) (x : Tensor) (k : Z) (n : nat)
      (preds : list Prediction) (info : ModelInfo) :
  model_outputs g n ->
  predict g x k = PredictOk preds info ->
  Z.of_nat (length preds) =
  if 0 <? k then Z.min k (Z.of_nat n)
  else Z.of_nat n - Z.min (- k) (Z.of_nat n).
Proof.
  intros Hwf H. apply predict_entry in H.
  destruct H as [outputs [m [Hm [Hx [Hlen _]]]]].
  rewrite Hlen, top_indices_length, softmax_length.
  rewrite (Hwf m x outputs Hm Hx). reflexivity.
Qed.

(** ** The history store *)

Ltac unfold_store :=
  unfold Database.save_prediction, Database.get_history,
    Database.insert_block, Database.on_insert_error,
    Database.select_block, Database.ensure_connected, Database.connect,
    Database._ensure_table, Database.not_connected,
    psycopg2.connect, psycopg2.cursor, psycopg2.execute_create,
    psycopg2.execute_insert, psycopg2.execute_select, psycopg2.commit,
    psycopg2.rollback, psycopg2.fail_statement, psycopg2.failing,
    psycopg2.aborted, bind, try_, ret, raise, set_conn, tick, quiescent
    in *.

Ltac split_cases :=
  repeat (simpl in *;
          match goal with
          | |- context [match ?x with _ => _ end] =>
              lazymatch x with
              | context [match _ with _ => _ end] => fail
              | _ => destruct x eqn:?
              end
          end).

Ltac tidy_store :=
  subst; simpl in *;
  repeat match goal with
         | H : Some _ = Some _ |- _ => inversion H; clear H; subst
         | H : pending _ = [] |- _ => rewrite H in *
         end;
  rewrite ?app_nil_r in *; simpl in *.

Lemma connect_spec (env : Env) (w : World) :
  quiescent w ->
  exists w' b,
    Database.connect env w = (w', Ok b) /\
    table w' = table w /\ next_id w' = next_id w /\ quiescent w' /\
    (b = true -> conn w' <> None) /\ (b = false -> conn w' = conn w).
Proof.
  intros Hq. unfold_store. split_cases;
    eexists; eexists; (split; [reflexivity|]); simpl;
    repeat split; auto using app_nil_r; try congruence.
Qed.

(** The row an insert of these values with this id writes. *)
Lemma save_prediction_spec (env : Env) (name pred : string) (conf : R)
      (top5 : list Prediction) (size : option Z) (w : World) :
  quiescent w ->
  exists w' r,
    Database.save_prediction env name pred conf top5 size w = (w', Ok r) /\
    quiescent w' /\
    match r with
    | None => table w' = table w
    | Some s =>
        s = {| saved_id := saved_id s; saved_timestamp := Some (now env) |} /\
        table w' =
        table w ++ [ {| row_id := saved_id s;
                        row_timestamp := now env;
                        row_image_name := name;
                        row_prediction := pred;
                        row_confidence := conf;
                        row_top_5_predictions := top5 |} ]
    end.
Proof.
  intros Hq. unfold_store. split_cases;
    eexists; eexists; (split; [reflexivity|]); simpl;
    repeat split; tidy_store; auto; try congruence.
Qed.

Ltac invert_runs :=
  repeat (simpl in *;
          match goal with
          | H : (_, _) = (_, _) |- _ => inversion H; clear H; subst
          | E : ?x = _, H : context [match ?x with _ => _ end] |- _ =>
              rewrite E in H
          end).

(** C6. Whatever the arguments, [save_prediction] returns and does not
    raise; a call that returns [None] leaves the stored table as it was
    and no uncommitted row behind; and a call whose [try] block raises
    (any error of the cursor, the insert or the commit) returns [None],
    with the transaction rolled back to idle unless the rollback itself
    failed, which the code ignores.  A call that cannot connect returns
    [None] as well. *)
Theorem save_prediction_error_rolls_back :
  forall (env : Env) (name pred : string) (conf : R)
         (top5 : list Prediction) (size : option Z) (w : World),
    quiescent w ->
    exists w' r,
      Database.save_prediction env name pred conf top5 size w = (w', Ok r) /\
      (r = None -> table w' = table w /\ quiescent w') /\
      (forall w1 w2 e,
          Database.ensure_connected env w = (w1, Ok true) ->
          Database.insert_block env name pred conf top5 w1 = (w2, Raise e) ->
          r = None /\
          (faults env (calls w2) = false ->
           conn w' = Some {| tx := TxIdle; pending := [] |})) /\
      (forall w1,
          Database.ensure_connected env w = (w1, Ok false) -> r = None).
Proof.
  intros env name pred conf top5 size w Hq.
  unfold_store. split_cases;
    eexists; eexists; (split; [reflexivity|]); simpl;
    (split; [intros; tidy_store; repeat split; auto; congruence|]);
    split.
  all: intros; invert_runs; tidy_store; try discriminate;
    try reflexivity.
  all: split; [reflexivity|]; intros; try congruence; try reflexivity.
Qed.

(** C10. The outcome of [save_prediction] (the value returned and the
    world after it, the inserted row included) is the same for any two
    values of [image_size], and the row a call adds holds the server's
    id and timestamp and the other four arguments, nothing else. *)
Theorem save_prediction_ignores_image_size :
  forall (env : Env) (name pred : string) (conf : R)
         (top5 : list Prediction) (size1 size2 : option Z) (w : World),
    Database.save_prediction env name pred conf top5 size1 w =
    Database.save_prediction env name pred conf top5 size2 w /\
    (quiescent w ->
     let w' := fst (Database.save_prediction env name pred conf top5 size1 w)
     in table w' = table w \/
        exists id,
          table w' = table w ++ [inserted_row id (now env) name pred conf top5]).
Proof.
  intros env name pred conf top5 size1 size2 w. split; [reflexivity|].
  intros Hq.
  destruct (save_prediction_spec env name pred conf top5 size1 w Hq)
    as [w' [r [Hrun [_ Hr]]]].
  rewrite Hrun. simpl. destruct r as [s|].
  - right. exists (saved_id s). apply Hr.
  - left. exact Hr.
Qed.

Lemma Zge_total (x y : Z) : (y <=? x) = true \/ (x <=? y) = true.
Proof. destruct (Z.leb_spec y x); [left; reflexivity|right]. apply Z.leb_le. lia. Qed.

Lemma order_by_timestamp_desc_sorted (rows : list Row) :
  StronglySorted (fun a b => row_timestamp b <= row_timestamp a)
                 (order_by_timestamp_desc rows).
Proof.
  unfold order_by_timestamp_desc.
  pose proof (stable_sort_sorted Row
                (fun a b => row_timestamp b <=? row_timestamp a)) as H.
  eapply StronglySorted_impl_aux; [|apply H].
  - intros a b Hab. apply Z.leb_le. exact Hab.
  - intros x y. apply Zge_total.
  - intros x y z Hxy Hyz. apply Z.leb_le in Hxy, Hyz. apply Z.leb_le. lia.
Qed.

Lemma history_page_newest_first (rows : list Row) (limit offset : Z) :
  newest_first (history_page rows limit offset).
Proof.
  unfold history_page. intros p q a b Hpq Ha Hb.
  rewrite nth_error_map in Ha, Hb.
  destruct (nth_error _ p) as [ra|] eqn:Era; [|discriminate].
  destruct (nth_error _ q) as [rb|] eqn:Erb; [|discriminate].
  inversion Ha; inversion Hb; subst. simpl.
  exists (row_timestamp ra), (row_timestamp rb).
  repeat split.
  eapply (StronglySorted_nth_error Row
            (fun a b => row_timestamp b <= row_timestamp a)); eauto.
  apply StronglySorted_firstn, StronglySorted_skipn.
  apply order_by_timestamp_desc_sorted.
Qed.

Lemma history_page_length (rows : list Row) (limit offset : Z) :
  0 <= limit ->
  Z.of_nat (length (history_page rows limit offset)) <= limit.
Proof.
  intros H. unfold history_page.
  rewrite length_map, length_firstn. lia.
Qed.

Lemma get_history_spec (env : Env) (limit offset : Z) (w : World) :
  quiescent w ->
  exists w' h,
    Database.get_history env limit offset w = (w', Ok h) /\
    table w' = table w /\ quiescent w' /\
    (h = [] \/
     (0 <= limit /\ 0 <= offset /\ h = history_page (table w) limit offset)).
Proof.
  intros Hq. unfold history_page. unfold_store. split_cases;
    eexists; eexists; (split; [reflexivity|]); simpl;
    tidy_store; repeat split; auto; try congruence.
  all: right; repeat split; try lia; reflexivity.
Qed.

(** With no failing call, a usable connection (or none yet) and
    non-negative arguments the query goes through. *)
Lemma get_history_success (env : Env) (limit offset : Z) (w : World) :
  quiescent w -> usable w ->
  (forall i, faults env i = false) ->
  0 <= limit -> 0 <= offset ->
  snd (Database.get_history env limit offset w)
  = Ok (history_page (table w) limit offset).
Proof.
  intros Hq Hu Hf Hl Ho. unfold history_page, usable in *.
  unfold_store. rewrite !Hf.
  split_cases; tidy_store; try reflexivity; try congruence; try lia.
Qed.


(** ** The HTTP surface *)

Lemma connect_returns (env : Env) (w : World) :
  exists w' b, Database.connect env w = (w', Ok b).
Proof.
  unfold_store. split_cases; eexists; eexists; reflexivity.
Qed.

Lemma db_get_history_returns (env : Env) (limit offset : Z) (w : World) :
  exists w' h,
    Database.get_history env limit offset w = (w', Ok h) /\
    ((forall i, faults env i = true) -> h = []).
Proof.
  unfold_store.
  split_cases; eexists; eexists; (split; [reflexivity|]);
    intros Hf; try reflexivity;
    repeat match goal with
           | H : faults env _ = false |- _ => rewrite Hf in H; discriminate
           end.
Qed.

(** C8 (amended). [GET /history] answers 200 with a list of records
    whatever the store does, and the list is empty when every call to
    the store fails: an error of the store never reaches the handler's
    [except] branch, so it is never answered with 500. *)
Theorem get_history_store_error_is_200 :
  forall (env : Env) (req : Request) (w : World),
    exists w' h,
      get_history env req w
      = (w', Ok {| status := 200; body := HistoryBody h |}) /\
      ((forall i, faults env i = true) -> h = []).
Proof.
  intros env req w. unfold get_history, try_, bind.
  destruct (Database.not_connected w).
  - destruct (connect_returns env w) as [w1 [b Hc]]. rewrite Hc.
    unfold ret at 1.
    destruct (db_get_history_returns env
                (match args_limit req with Some l => l | None => 50 end)
                (match args_offset req with Some o => o | None => 0 end) w1)
      as [w2 [h [Hh Hempty]]].
    rewrite Hh. exists w2, h. split; [reflexivity | exact Hempty].
  - destruct (db_get_history_returns env
                (match args_limit req with Some l => l | None => 50 end)
                (match args_offset req with Some o => o | None => 0 end) w)
      as [w2 [h [Hh Hempty]]].
    rewrite Hh. exists w2, h. split; [reflexivity | exact Hempty].
Qed.

(** The best-effort write: it never raises, and it adds either nothing or
    the one row of the top prediction. *)
Lemma persist_history_spec (env : Env) (file : Upload) (size : Z)
      (result : PredictionResult) (w : World) :
  quiescent w ->
  exists w' saved,
    persist_history env file size result w = (w', Ok saved) /\
    quiescent w' /\
    match saved with
    | None => table w' = table w
    | Some s =>
        exists top rest info,
          result = PredictOk (top :: rest) info /\
          s = {| saved_id := saved_id s; saved_timestamp := Some (now env) |} /\
          table w' =
          table w ++ [inserted_row (saved_id s) (now env) (filename file)
                        (label top) (confidence top) (top :: rest)]
    end.
Proof.
  intros Hq. unfold persist_history, try_, bind.
  assert (Hpre : exists w1,
             (if Database.not_connected w
              then (fun w0 => let (w2, e) := Database.connect env w0 in
                              match e with
                              | Ok _ => ret tt w2
                              | Raise e0 => (w2, Raise e0)
                              end) w
              else (w, Ok tt)) = (w1, Ok tt) /\
             quiescent w1 /\ table w1 = table w).
  { destruct (Database.not_connected w).
    - destruct (connect_spec env w Hq) as [w1 [b [Hc [Ht [_ [Hq1 _]]]]]].
      rewrite Hc. exists w1. repeat split; assumption.
    - exists w. repeat split; assumption. }
  destruct Hpre as [w1 [Hrun [Hq1 Ht1]]]. rewrite Hrun.
  destruct result as [[|top rest] info | e].
  - exists w1, None. repeat split; assumption.
  - destruct (save_prediction_spec env (filename file) (label top)
                (confidence top) (top :: rest) (Some size) w1 Hq1)
      as [w2 [r [Hs [Hq2 Hr]]]].
    rewrite Hs. exists w2, r. split; [reflexivity|]. split; [exact Hq2|].
    destruct r as [s|].
    + exists top, rest, info. rewrite <- Ht1. destruct Hr as [Hr1 Hr2].
      repeat split; assumption.
    + congruence.
  - exists w1, None. repeat split; assumption.
Qed.

(** What [POST /predict] does, case by case: a response other than 200
    leaves the table as it was; a 200 carries the engine's predictions,
    and the table gains at most the row of the first of them. *)
Lemma predict_endpoint_spec (g : Globals Tensor) (env : Env) (req : Request)
      (w : World) :
  quiescent w ->
  exists w' resp,
    predict_endpoint preprocess_image g env req w = (w', Ok resp) /\
    quiescent w' /\
    ((status resp <> 200 /\ response_predictions resp = [] /\
      table w' = table w) \/
     exists file img top rest info saved,
       files_image req = Some file /\
       preprocess_image file = Ok img /\
       predict g img
               (clamp_top_k g (match form_top_k req with
                               | Some k => k
                               | None => 5
                               end))
       = PredictOk (top :: rest) info /\
       resp = {| status := 200;
                 body := ResultBody true (top :: rest)
                           (with_processing_time (elapsed_ms env) info)
                           (filename file) (request_id env) saved |} /\
       match saved with
       | None => table w' = table w
       | Some s =>
           s = {| saved_id := saved_id s;
                  saved_timestamp := Some (now env) |} /\
           table w' =
           table w ++ [inserted_row (saved_id s) (now env) (filename file)
                         (label top) (confidence top) (top :: rest)]
       end).
Proof.
  intros Hq. unfold predict_endpoint.
  destruct (model g) as [m|];
    [|exists w; eexists; split; [reflexivity|]; split; [exact Hq|];
      left; simpl; repeat split; auto; discriminate].
  destruct (files_image req) as [file|];
    [|exists w; eexists; split; [reflexivity|]; split; [exact Hq|];
      left; simpl; repeat split; auto; discriminate].
  destruct (String.eqb (filename file) "");
    [exists w; eexists; split; [reflexivity|]; split; [exact Hq|];
     left; simpl; repeat split; auto; discriminate|].
  destruct (Z.of_nat (length (content file)) >? MAX_IMAGE_SIZE);
    [exists w; eexists; split; [reflexivity|]; split; [exact Hq|];
     left; simpl; repeat split; auto; discriminate|].
  unfold try_.
  destruct (preprocess_image file) as [img|e] eqn:Epre;
    [|exists w; eexists; split; [reflexivity|]; split; [exact Hq|];
      left; simpl; repeat split; auto; discriminate].
  unfold bind.
  destruct (persist_history_spec env file
              (Z.of_nat (length (content file)))
              (predict g img
                 (clamp_top_k g (match form_top_k req with
                                 | Some k => k
                                 | None => 5
                                 end))) w Hq)
    as [w1 [saved [Hp [Hq1 Hsaved]]]].
  rewrite Hp.
  destruct (predict g img _) as [[|top rest] info | e] eqn:Epred.
  - exists w1; eexists; split; [reflexivity|]; split; [exact Hq1|].
    left; simpl; repeat split; auto; try discriminate.
    destruct saved as [s|]; [|exact Hsaved].
    destruct Hsaved as [t [r [i [Hx _]]]]; discriminate.
  - exists w1; eexists; split; [reflexivity|]; split; [exact Hq1|].
    right. exists file, img, top, rest, info, saved.
    repeat split; auto.
    destruct saved as [s|]; [|exact Hsaved].
    destruct Hsaved as [t [r [i [Hx [Hs Ht]]]]].
    inversion Hx; subst. split; assumption.
  - exists w1; eexists; split; [reflexivity|]; split; [exact Hq1|].
    left; simpl; repeat split; auto; try discriminate.
    destruct saved as [s|]; [|exact Hsaved].
    destruct Hsaved as [t [r [i [Hx _]]]]; discriminate.
Qed.

Lemma persist_history_returns (env : Env) (file : Upload) (size : Z)
      (result : PredictionResult) (w : World) :
  exists w' saved, persist_history env file size result w = (w', Ok saved).
Proof.
  unfold persist_history, try_.
  destruct (bind _ _ w) as [w1 [a|e]]; eexists; eexists; reflexivity.
Qed.

(** The shape of the response alone, for any world. *)
Lemma predict_endpoint_response (g : Globals Tensor) (env : Env) (req : Request)
      (w : World) :
  exists w' resp,
    predict_endpoint preprocess_image g env req w = (w', Ok resp) /\
    ((status resp <> 200 /\ response_predictions resp = []) \/
     exists file img top rest info saved,
       files_image req = Some file /\
       preprocess_image file = Ok img /\
       predict g img
               (clamp_top_k g (match form_top_k req with
                               | Some k => k
                               | None => 5
                               end))
       = PredictOk (top :: rest) info /\
       resp = {| status := 200;
                 body := ResultBody true (top :: rest)
                           (with_processing_time (elapsed_ms env) info)
                           (filename file) (request_id env) saved |}).
Proof.
  unfold predict_endpoint.
  destruct (model g) as [m|];
    [|exists w; eexists; split; [reflexivity|];
      left; simpl; split; [discriminate | reflexivity]].
  destruct (files_image req) as [file|];
    [|exists w; eexists; split; [reflexivity|];
      left; simpl; split; [discriminate | reflexivity]].
  destruct (String.eqb (filename file) "");
    [exists w; eexists; split; [reflexivity|];
     left; simpl; split; [discriminate | reflexivity]|].
  destruct (Z.of_nat (length (content file)) >? MAX_IMAGE_SIZE);
    [exists w; eexists; split; [reflexivity|];
     left; simpl; split; [discriminate | reflexivity]|].
  unfold try_.
  destruct (preprocess_image file) as [img|e] eqn:Epre;
    [|exists w; eexists; split; [reflexivity|];
      left; simpl; split; [discriminate | reflexivity]].
  unfold bind.
  destruct (persist_history_returns env file
              (Z.of_nat (length (content file)))
              (predict g img
                 (clamp_top_k g (match form_top_k req with
                                 | Some k => k
                                 | None => 5
                                 end))) w)
    as [w1 [saved Hp]].
  rewrite Hp.
  destruct (predict g img _) as [[|top rest] info | e] eqn:Epred.
  - exists w1; eexists; split; [reflexivity|].
    left; simpl; split; [discriminate | reflexivity].
  - exists w1; eexists; split; [reflexivity|].
    right. exists file, img, top, rest, info, saved. repeat split; auto.
  - exists w1; eexists; split; [reflexivity|].
    left; simpl; split; [discriminate | reflexivity].
Qed.

Lemma max_k_num_classes (g : Globals Tensor) (n : nat) :
  num_classes g = Some n -> max_k g = Z.of_nat n.
Proof. unfold max_k. intros ->. reflexivity. Qed.

(** The number of entries of a 200 response. *)
Lemma predict_endpoint_count (g : Globals Tensor) (env : Env) (req : Request)
      (w w' : World) (resp : Response) (n : nat) (k : Z) :
  num_classes g = Some n -> model_outputs g n ->
  form_top_k req = Some k ->
  predict_endpoint preprocess_image g env req w = (w', Ok resp) ->
  status resp = 200 ->
  Z.of_nat (length (response_predictions resp))
  = Z.min (Z.max 1 k) (Z.of_nat n).
Proof.
  intros Hn Hwf Hk Hrun Hst.
  destruct (predict_endpoint_response g env req w)
    as [w1 [r [Hrun' [[Hne _] | Hok]]]];
    rewrite Hrun in Hrun'; inversion Hrun'; subst; [congruence|].
  destruct Hok as [file [img [top [rest [info [saved [_ [_ [Hp ->]]]]]]]]].
  unfold response_predictions. simpl.
  rewrite Hk in Hp. unfold clamp_top_k in Hp.
  rewrite (max_k_num_classes g n Hn) in Hp.
  pose proof (predict_count g img _ n _ _ Hwf Hp) as Hc.
  simpl length in Hc |- *.
  destruct (0 <? Z.min (Z.max 1 k) (Z.of_nat n)) eqn:E.
  - apply Z.ltb_lt in E. lia.
  - apply Z.ltb_ge in E. lia.
Qed.


Lemma persist_history_outage (env : Env) (file : Upload) (size : Z)
      (result : PredictionResult) (w : World) :
  (forall i, faults env i = true) ->
  exists w',
    persist_history env file size result w = (w', Ok None) /\
    table w' = table w.
Proof.
  intros Hf. unfold persist_history. unfold_store.
  destruct result as [[|top rest] info | e];
    split_cases;
    try match goal with
        | H : faults env _ = false |- _ => rewrite Hf in H; discriminate
        end;
    eexists; split; reflexivity.
Qed.

(** The response to an accepted upload on which inference succeeds, for
    any store. *)
Lemma predict_endpoint_ok (g : Globals Tensor) (env : Env) (req : Request)
      (w : World) (m : Model Tensor) (file : Upload) (img : Tensor)
      (top : Prediction) (rest : list Prediction) (info : ModelInfo) :
  model g = Some m ->
  files_image req = Some file ->
  String.eqb (filename file) "" = false ->
  Z.of_nat (length (content file)) <= MAX_IMAGE_SIZE ->
  preprocess_image file = Ok img ->
  predict g img (clamp_top_k g (match form_top_k req with
                                | Some k => k
                                | None => 5
                                end))
  = PredictOk (top :: rest) info ->
  exists w' saved,
    persist_history env file (Z.of_nat (length (content file)))
                    (PredictOk (top :: rest) info) w = (w', Ok saved) /\
    predict_endpoint preprocess_image g env req w
    = (w', Ok {| status := 200;
                 body := ResultBody true (top :: rest)
                           (with_processing_time (elapsed_ms env) info)
                           (filename file) (request_id env) saved |}).
Proof.
  intros Hm Hfile Hname Hsize Hpre Hp.
  unfold predict_endpoint. rewrite Hm, Hfile, Hname.
  replace (Z.of_nat (length (content file)) >? MAX_IMAGE_SIZE) with false
    by (symmetry; rewrite Z.gtb_ltb; apply Z.ltb_ge; exact Hsize).
  unfold try_. rewrite Hpre. unfold bind. rewrite Hp.
  destruct (persist_history_returns env file
              (Z.of_nat (length (content file)))
              (PredictOk (top :: rest) info) w) as [w1 [saved Hrun]].
  rewrite Hrun. exists w1, saved. split; reflexivity.
Qed.

(** C2. Once inference has succeeded on an accepted upload, the response
    is 200 with [success: true] and the engine's full predictions list
    for every behaviour of the store, and nothing in it but the optional
    [history_record] depends on the store; when every call to the store
    fails, the record is absent, nothing is written, and the response is
    still that one. *)
Theorem persistence_failure_not_surfaced :
  forall (g : Globals Tensor) (env : Env) (req : Request) (w : World)
         (m : Model Tensor) (file : Upload) (img : Tensor)
         (top : Prediction) (rest : list Prediction) (info : ModelInfo),
    model g = Some m ->
    files_image req = Some file ->
    String.eqb (filename file) "" = false ->
    Z.of_nat (length (content file)) <= MAX_IMAGE_SIZE ->
    preprocess_image file = Ok img ->
    predict g img (clamp_top_k g (match form_top_k req with
                                  | Some k => k
                                  | None => 5
                                  end))
    = PredictOk (top :: rest) info ->
    exists w' saved,
      predict_endpoint preprocess_image g env req w
      = (w', Ok {| status := 200;
                   body := ResultBody true (top :: rest)
                             (with_processing_time (elapsed_ms env) info)
                             (filename file) (request_id env) saved |}) /\
      ((forall i, faults env i = true) ->
       saved = None /\ table w' = table w).
Proof.
  intros g env req w m file img top rest info Hm Hfile Hname Hsize Hpre Hp.
  destruct (predict_endpoint_ok g env req w m file img top rest info
              Hm Hfile Hname Hsize Hpre Hp) as [w1 [saved [Hrun Hresp]]].
  exists w1, saved. split; [exact Hresp|].
  intros Hf.
  destruct (persist_history_outage env file
              (Z.of_nat (length (content file)))
              (PredictOk (top :: rest) info) w Hf) as [w2 [Hout Ht]].
  rewrite Hrun in Hout. inversion Hout; subst. split; [reflexivity | exact Ht].
Qed.

(** C3. A prediction request either leaves the table as it was or adds
    exactly one row, and then the response is a 200 whose
    [history_record] names that row, the row's confidence is the
    confidence of [predictions[0]], its prediction text is that entry's
    label, and its top-5 column is the predictions list. *)
Theorem stored_record_matches_top_prediction :
  forall (g : Globals Tensor) (env : Env) (req : Request) (w : World),
    quiescent w ->
    exists w' resp,
      predict_endpoint preprocess_image g env req w = (w', Ok resp) /\
      (table w' = table w \/
       exists row top rest info name rid,
         table w' = table w ++ [row] /\
         resp = {| status := 200;
                   body := ResultBody true (top :: rest) info name rid
                             (Some {| saved_id := row_id row;
                                      saved_timestamp :=
                                        Some (row_timestamp row) |}) |} /\
         row_confidence row = confidence top /\
         row_prediction row = label top /\
         row_image_name row = name /\
         row_top_5_predictions row = top :: rest).
Proof.
  intros g env req w Hq.
  destruct (predict_endpoint_spec g env req w Hq)
    as [w' [resp [Hrun [_ Hcases]]]].
  exists w', resp. split; [exact Hrun|].
  destruct Hcases as [[_ [_ Ht]] | Hok]; [left; exact Ht|].
  destruct Hok as [file [img [top [rest [info [saved [_ [_ [_ [-> Hs]]]]]]]]]].
  destruct saved as [s|]; [|left; exact Hs].
  destruct Hs as [Hs Ht]. right.
  exists (inserted_row (saved_id s) (now env) (filename file)
            (label top) (confidence top) (top :: rest)),
    top, rest, (with_processing_time (elapsed_ms env) info),
    (filename file), (request_id env).
  simpl. rewrite <- Hs. repeat split; auto.
Qed.


(** ** The label store and startup *)

Lemma default_labels_length (n : nat) : length (default_labels n) = n.
Proof. unfold default_labels. rewrite length_map. apply length_seq. Qed.

Lemma default_labels_nth (n i : nat) :
  (i < n)%nat -> nth_error (default_labels n) i = Some (class_placeholder i).
Proof.
  intros H. unfold default_labels. apply map_nth_error.
  rewrite (nth_error_nth' (seq 0 n) 0%nat) by (rewrite length_seq; exact H).
  rewrite seq_nth by exact H. reflexivity.
Qed.

Lemma with_default_labels_placeholder (g : Globals Tensor) :
  placeholder_labels (with_default_labels g) /\
  num_classes (with_default_labels g)
  = Some (match num_classes g with
          | Some n => n
          | None => 1000%nat
          end).
Proof.
  split; [|reflexivity].
  unfold placeholder_labels, with_default_labels. simpl.
  eexists; eexists. split; [reflexivity|]. split; [reflexivity|].
  split; [apply default_labels_length|].
  intros i Hi. apply default_labels_nth. exact Hi.
Qed.

Lemma load_model_keeps_labels (ck : Checkpoint Tensor) (g g' : Globals Tensor) (n : nat) :
  num_classes g = Some n ->
  load_model ck g = (g', true) ->
  class_labels g' = class_labels g /\ num_classes g' = Some n /\
  model g' <> None.
Proof.
  unfold load_model. intros Hn.
  destruct (ck_device ck) as [dev|]; [|discriminate].
  rewrite Hn. destruct (ck_load ck n) as [m|]; [|discriminate].
  intros H. inversion H; subst. simpl. repeat split; auto. discriminate.
Qed.


(** ** Ties in the ranking *)


End AppFacts.

(* ================================================================= *)
(** * Concrete runs *)

Lemma demo_model_outputs : model_outputs demo_globals 1.
Proof.
  intros m x logits Hm Hx. simpl in Hm. inversion Hm; subst m.
  unfold demo_model in Hx. inversion Hx. reflexivity.
Qed.

Lemma pair_model_outputs : model_outputs pair_globals 2.
Proof.
  intros m x logits Hm Hx. simpl in Hm. inversion Hm; subst m.
  unfold pair_model in Hx. inversion Hx. reflexivity.
Qed.

Lemma Rleb_true (x y : R) : (x <= y)%R -> Rleb x y = true.
Proof.
  unfold Rleb. destruct (Rle_dec x y); [reflexivity | contradiction].
Qed.

Lemma pair_probs_order :
  Rleb (confidence ash) (confidence birch) = true.
Proof.
  apply Rleb_true. unfold ash, birch, confidence, Rdiv.
  apply Rmult_le_compat_r.
  - apply Rlt_le, Rinv_0_lt_compat. simpl.
    pose proof (exp_pos 0); pose proof (exp_pos 1). lra.
  - apply Rlt_le, exp_increasing. lra.
Qed.

Lemma pair_argsort : argsort Rleb (softmax [0%R; 1%R]) = [0%nat; 1%nat].
Proof.
  unfold argsort, softmax.
  cbn [map length seq combine stable_sort insert_by fst snd].
  pose proof pair_probs_order as H. cbn [ash birch confidence] in H.
  rewrite H. reflexivity.
Qed.

(** The engine on the two classes: the likelier class first. *)
Lemma pair_predict_two :
  predict pair_globals tt 2 = PredictOk [birch; ash] pair_info.
Proof.
  unfold predict, top_indices.
  cbn [model pair_globals pair_model]. rewrite pair_argsort. reflexivity.
Qed.

Lemma pair_predict_one :
  predict pair_globals tt 1 = PredictOk [birch] pair_info.
Proof.
  unfold predict, top_indices.
  cbn [model pair_globals pair_model]. rewrite pair_argsort. reflexivity.
Qed.

(** [top_k = 100000] on two classes: both entries. *)
Example predict_endpoint_two_classes :
  exists w' saved,
    predict_endpoint demo_preprocess pair_globals calm_env
                     (demo_request (Some 100000)) empty_world
    = (w', Ok {| status := 200;
                 body := ResultBody true [birch; ash]
                           (with_processing_time 12%R pair_info)
                           "leaf.jpg" "r-1" saved |}).
Proof.
  destruct (predict_endpoint_ok unit demo_preprocess pair_globals calm_env
              (demo_request (Some 100000)) empty_world
              pair_model demo_upload tt birch [ash] pair_info
              eq_refl eq_refl eq_refl ltac:(simpl; unfold MAX_IMAGE_SIZE; lia)
              eq_refl pair_predict_two) as [w' [saved [_ H]]].
  exists w', saved. exact H.
Qed.

Lemma Qle_bool_total (x y : Q) : Qle_bool x y = true \/ Qle_bool y x = true.
Proof.
  destruct (Qlt_le_dec x y) as [H | H].
  - left. apply Qle_bool_iff, Qlt_le_weak, H.
  - right. apply Qle_bool_iff, H.
Qed.

Lemma Qle_bool_trans (x y z : Q) :
  Qle_bool x y = true -> Qle_bool y z = true -> Qle_bool x z = true.
Proof.
  rewrite !Qle_bool_iff. apply Qle_trans.
Qed.

(** Selection on small vectors: the two best of three, everything for
    [top_k = 0], and a tie. *)
Example top_indices_two_of_three :
  top_indices Qle_bool [1#10; 6#10; 3#10]%Q 2 = [1%nat; 2%nat].
Proof. reflexivity. Qed.

Example top_indices_zero_takes_all :
  top_indices Qle_bool [1#10; 6#10; 3#10]%Q 0 = [1%nat; 2%nat; 0%nat].
Proof. reflexivity. Qed.

Example top_indices_tie :
  top_indices Qle_bool [1#2; 1#2]%Q 2 = [1%nat; 0%nat].
Proof. reflexivity. Qed.

Example class_placeholder_17 : class_placeholder 17 = "Class 17"%string.
Proof. reflexivity. Qed.

Example predict_endpoint_demo :
  predict_endpoint demo_preprocess demo_globals calm_env
                   (demo_request (Some 3)) empty_world
  = (demo_world_after, Ok demo_response).
Proof. reflexivity. Qed.

(** ** C1 *)



(** ** C2 *)

Lemma persistence_failure_not_surfaced_witness :
  exists w' saved,
    predict_endpoint demo_preprocess demo_globals outage_env
                     (demo_request None) empty_world
    = (w', Ok {| status := 200;
                 body := ResultBody true [demo_top]
                           (with_processing_time 12%R demo_info)
                           "leaf.jpg" "r-1" saved |}) /\
    ((forall i, faults outage_env i = true) ->
     saved = None /\ table w' = table empty_world).
Proof.
  apply (persistence_failure_not_surfaced unit demo_preprocess
           demo_globals outage_env (demo_request None) empty_world
           demo_model demo_upload tt demo_top [] demo_info).
  - reflexivity.
  - reflexivity.
  - reflexivity.
  - simpl. unfold MAX_IMAGE_SIZE. lia.
  - reflexivity.
  - reflexivity.
Defined.

(** ** C3 *)

Lemma stored_record_matches_top_prediction_witness :
  quiescent empty_world /\
  exists w' resp,
    predict_endpoint demo_preprocess demo_globals calm_env
                     (demo_request None) empty_world = (w', Ok resp) /\
    (table w' = table empty_world \/
     exists row top rest info name rid,
       table w' = table empty_world ++ [row] /\
       resp = {| status := 200;
                 body := ResultBody true (top :: rest) info name rid
                           (Some {| saved_id := row_id row;
                                    saved_timestamp :=
                                      Some (row_timestamp row) |}) |} /\
       row_confidence row = confidence top /\
       row_prediction row = label top /\
       row_image_name row = name /\
       row_top_5_predictions row = top :: rest).
Proof.
  split; [exact I|].
  apply (stored_record_matches_top_prediction unit demo_preprocess
           demo_globals calm_env (demo_request None) empty_world).
  exact I.
Defined.

(** ** C4 *)



(** ** C5 *)


(** A request for 100000 entries of the one class there is. *)
Example predict_endpoint_large_top_k :
  predict_endpoint demo_preprocess demo_globals calm_env
                   (demo_request (Some 100000)) empty_world
  = (demo_world_after, Ok demo_response) /\
  length (response_predictions demo_response) = 1%nat.
Proof.
  split; reflexivity.
Qed.

(** ** C6 *)

(** A commit that fails: the call returns [None], the table is as
    before and the connection is idle again. *)
Example save_prediction_commit_fails :
  Database.save_prediction commit_fails_env "leaf.jpg" "leaf" 1%R [] None
                           two_row_world
  = ({| conn := Some {| tx := TxIdle; pending := [] |};
        table := [demo_row 1 10; demo_row 2 20];
        next_id := 4;
        calls := 4 |}, Ok None).
Proof. reflexivity. Qed.

Lemma save_prediction_error_rolls_back_witness :
  quiescent two_row_world /\
  exists w' r,
    Database.save_prediction commit_fails_env "leaf.jpg" "leaf" 1%R [] None
                             two_row_world = (w', Ok r) /\
    (r = None -> table w' = table two_row_world /\ quiescent w') /\
    (forall w1 w2 e,
        Database.ensure_connected commit_fails_env two_row_world
        = (w1, Ok true) ->
        Database.insert_block commit_fails_env "leaf.jpg" "leaf" 1%R [] w1
        = (w2, Raise e) ->
        r = None /\
        (faults commit_fails_env (calls w2) = false ->
         conn w' = Some {| tx := TxIdle; pending := [] |})) /\
    (forall w1,
        Database.ensure_connected commit_fails_env two_row_world
        = (w1, Ok false) -> r = None).
Proof.
  split; [reflexivity|].
  apply (save_prediction_error_rolls_back commit_fails_env
           "leaf.jpg" "leaf" 1%R [] None two_row_world).
  reflexivity.
Defined.

(** ** C7 *)

(** The two rows, most recent first, and the second page of size one. *)
Example get_history_two_rows :
  snd (Database.get_history calm_env 50 0 two_row_world)
  = Ok [Database.format_row (demo_row 2 20);
        Database.format_row (demo_row 1 10)].
Proof. reflexivity. Qed.

Example get_history_second_page :
  snd (Database.get_history calm_env 1 1 two_row_world)
  = Ok [Database.format_row (demo_row 1 10)].
Proof. reflexivity. Qed.



(** ** C8 *)

(** C8 as stated fails when the store is down: every call fails, and
    the answer is 200 with an empty list, not 500. *)
Lemma get_history_outage_is_200 :
  snd (get_history outage_env (demo_request None) empty_world)
  = Ok {| status := 200; body := HistoryBody [] |} /\
  status {| status := 200; body := HistoryBody [] |} <> 500.
Proof.
  split; [reflexivity|]. simpl. discriminate.
Qed.

(** The same request with the store up. *)
Example get_history_endpoint_two_rows :
  snd (get_history calm_env (demo_request None) two_row_world)
  = Ok {| status := 200;
          body := HistoryBody [Database.format_row (demo_row 2 20);
                               Database.format_row (demo_row 1 10)] |}.
Proof. reflexivity. Qed.

(** ** C9 *)

Example main_without_labels :
  exists g w,
    main LabelsMissing demo_checkpoint outage_env empty_world = Serving g w /\
    num_classes g = Some 1000%nat /\
    option_map (@length string) (class_labels g) = Some 1000%nat /\
    option_map (fun l => nth_error l 999) (class_labels g)
    = Some (Some "Class 999"%string).
Proof.
  eexists; eexists. split; [reflexivity|].
  split; [reflexivity|]. split; vm_compute; reflexivity.
Qed.

(** Labels are loaded before the model, so without a label file the
    class count is already the default 1000 when [load_model] runs: it
    does not read the count off the checkpoint, and a checkpoint that
    fits another count makes it report failure. *)
Example main_without_labels_other_count :
  load_model fifty_class_checkpoint (load_labels LabelsMissing initial_globals)
  = ({| model := Some demo_model;
        class_labels := Some (default_labels 1000);
        g_device := Some "cpu"%string;
        num_classes := Some 1000%nat |}, false) /\
  main LabelsMissing fifty_class_checkpoint calm_env empty_world = Exited 1.
Proof. split; reflexivity. Qed.
